(** * Deduplicating MongoDB store of the article / Twitter scraper

    Shallow embedding of [src/mongodb_manager.py] ([MongoDBManager]) and of the
    GridFS media upload paths of [src/unified_app/twitter_mongo_manager.py]
    and [src/upload_media_to_gridfs.py].

    The MongoDB server is modelled as an in-memory database: every collection
    is a list of documents in natural (insertion) order, unique indexes are
    checked on insert, and a Python exception raised by a driver call is a
    [Raise] result of a small state-and-exception monad, so that the
    [try]/[except] blocks of the source become [catch] in the model.  The
    server is assumed reachable: connectivity failures are not modelled, the
    exceptions that remain are [DuplicateKeyError] (unique index violated)
    and [InvalidDocument] (the article dict cannot be encoded to BSON).
    [threading.Lock] serialises the methods, so calls are modelled one after
    the other. *)

From Stdlib Require Import Ascii String List ZArith Lia Bool Arith.
Import ListNotations.
Open Scope string_scope.

(** ** Exceptions and the state-and-exception monad *)

Inductive exn : Type :=
| DuplicateKeyError
| InvalidDocument.

(** [str(e)] of the exceptions the driver raises. *)
Definition exn_str (e : exn) : string :=
  match e with
  | DuplicateKeyError => "E11000 duplicate key error"
  | InvalidDocument => "cannot encode object"
  end.

Inductive res (A : Type) : Type :=
| Ok (a : A)
| Raise (e : exn).
Arguments Ok {A} a.
Arguments Raise {A} e.

(** ** Documents and collections *)

(** An article dict as [add_article] reads it: [article.get('url')],
    [article.get('website_name')], whether ['scraped_at'] is present, and
    whether the dict is BSON encodable (a dict holding a value BSON cannot
    encode makes [insert_one] raise before anything is sent).  Only dicts
    are articles here: an item that is not a dict makes [article.get('url')]
    raise [AttributeError] outside the [try] of [add_article]; lists holding
    such items are modelled by [json_item] and [batch_items].  A url that is
    neither a string nor missing/null is not modelled either. *)
Record article : Type := mkArticle {
  a_url : option string;
  a_website_name : option string;
  a_scraped_at : option string;
  a_bson_ok : bool
}.

(** A document of the articles collection: its [_id] and the article. *)
Record article_doc : Type := mkArticleDoc {
  ad_id : nat;
  ad_article : article
}.

(** A document of the seen_urls collection (see [_add_to_seen_urls]). *)
Record seen_entry : Type := mkSeen {
  se_url : string;
  se_first_seen : string;
  se_last_seen : string;
  se_source : option string;
  se_seen_count : Z
}.

(** The singleton stats document.  Its numeric fields are kept as a map from
    dotted path (["total_articles"], ["sources.X.duplicates"], ...) to value,
    which is how [$inc] addresses them; a missing path is a missing field. *)
Record stats_doc : Type := mkStats {
  st_counters : list (string * Z);
  st_last_updated : string
}.

(** A document of the scraper_runs collection. *)
Record run_doc : Type := mkRun {
  r_id : nat;
  r_started_at : string;
  r_status : string;
  r_source : option string;
  r_articles_scraped : Z;
  r_duplicates_found : Z;
  r_errors : Z;
  r_ended_at : option string
}.

(** The database: the four collections, the ObjectId generator and the
    current time read by [datetime.now()]. *)
Record db : Type := mkDb {
  articles : list article_doc;
  seen_urls : list seen_entry;
  stats : option stats_doc;
  scraper_runs : list run_doc;
  next_oid : nat;
  now : string
}.

Definition M (A : Type) : Type := db -> res A * db.

Definition ret {A} (a : A) : M A := fun s => (Ok a, s).
Definition bind {A B} (m : M A) (k : A -> M B) : M B :=
  fun s => match m s with
           | (Ok a, s') => k a s'
           | (Raise e, s') => (Raise e, s')
           end.
(** [try: m except e: h e]: the writes done before the exception stay. *)
Definition catch {A} (m : M A) (h : exn -> M A) : M A :=
  fun s => match m s with
           | (Ok a, s') => (Ok a, s')
           | (Raise e, s') => h e s'
           end.

Notation "x <- m ;; k" := (bind m (fun x => k))
  (at level 61, m at next level, right associativity).
Notation "m ;;; k" := (bind m (fun _ => k))
  (at level 61, right associativity).

Definition set_articles (s : db) (l : list article_doc) : db :=
  mkDb l (seen_urls s) (stats s) (scraper_runs s) (next_oid s) (now s).
Definition set_seen (s : db) (l : list seen_entry) : db :=
  mkDb (articles s) l (stats s) (scraper_runs s) (next_oid s) (now s).
Definition set_stats (s : db) (d : option stats_doc) : db :=
  mkDb (articles s) (seen_urls s) d (scraper_runs s) (next_oid s) (now s).
Definition set_runs (s : db) (l : list run_doc) : db :=
  mkDb (articles s) (seen_urls s) (stats s) l (next_oid s) (now s).
Definition bump_oid (s : db) : db :=
  mkDb (articles s) (seen_urls s) (stats s) (scraper_runs s) (S (next_oid s)) (now s).

(** [datetime.now().isoformat()] *)
Definition now_iso : M string := fun s => (Ok (now s), s).

(** A fresh ObjectId. *)
Definition new_oid : M nat := fun s => (Ok (next_oid s), bump_oid s).

(** Python truthiness of an optional string: [None] and [""] are falsy. *)
Definition truthy (o : option string) : bool :=
  match o with
  | None => false
  | Some x => negb (String.eqb x "")
  end.

Definition opt_eqb (o : option string) (u : string) : bool :=
  match o with Some x => String.eqb x u | None => false end.

(** ** Driver calls on the collections *)

(** [articles_collection.insert_one(article)]: BSON encoding happens first,
    then the unique index on [url] is checked. *)
Definition articles_insert_one (a : article) : M nat :=
  fun s =>
    if negb (a_bson_ok a) then (Raise InvalidDocument, s)
    else
      let u := a_url a in
      if existsb (fun d => match u with
                           | Some x => opt_eqb (a_url (ad_article d)) x
                           | None => false end) (articles s)
      then (Raise DuplicateKeyError, s)
      else let i := next_oid s in
           (Ok i, bump_oid (set_articles s (articles s ++ [mkArticleDoc i a]))).

(** [articles_collection.count_documents({})] *)
Definition articles_count : M nat := fun s => (Ok (length (articles s)), s).

(** [seen_urls_collection.count_documents({'url': url}, limit=1)] *)
Definition seen_count (u : string) : M nat :=
  fun s => (Ok (Nat.min 1 (length (filter (fun e => String.eqb (se_url e) u)
                                          (seen_urls s)))), s).

(** [seen_urls_collection.insert_one(entry)], unique index on [url]. *)
Definition seen_insert_one (e : seen_entry) : M unit :=
  fun s =>
    if existsb (fun e' => String.eqb (se_url e') (se_url e)) (seen_urls s)
    then (Raise DuplicateKeyError, s)
    else (Ok tt, set_seen s (seen_urls s ++ [e])).

(** [update_one] on the first matching document, no upsert. *)
Fixpoint update_first {T} (p : T -> bool) (f : T -> T) (l : list T) : list T :=
  match l with
  | [] => []
  | x :: l' => if p x then f x :: l' else x :: update_first p f l'
  end.

(** [seen_urls_collection.update_one({'url': url},
      {'$set': {'last_seen': t}, '$inc': {'seen_count': 1}})] *)
Definition seen_touch (u : string) : M unit :=
  fun s =>
    (Ok tt, set_seen s (update_first (fun e => String.eqb (se_url e) u)
               (fun e => mkSeen (se_url e) (se_first_seen e) (now s)
                                (se_source e) (se_seen_count e + 1)%Z)
               (seen_urls s))).

(** [$inc] of one dotted path: a missing field is created with the amount. *)
Fixpoint inc_path (p : string) (n : Z) (l : list (string * Z)) : list (string * Z) :=
  match l with
  | [] => [(p, n)]
  | (q, v) :: l' => if String.eqb q p then (q, (v + n)%Z) :: l'
                    else (q, v) :: inc_path p n l'
  end.

Definition apply_incs (incs : list (string * Z)) (l : list (string * Z))
  : list (string * Z) :=
  fold_left (fun acc pv => inc_path (fst pv) (snd pv) acc) incs l.

Fixpoint lookup_path (p : string) (l : list (string * Z)) : option Z :=
  match l with
  | [] => None
  | (q, v) :: l' => if String.eqb q p then Some v else lookup_path p l'
  end.

(** [stats_collection.update_one({}, {'$inc': incs, '$set':
      {'last_updated': t}}, upsert=True)]; the upsert creates the document
    from the update when there is none.  The model covers updates whose
    paths are built from plain names (see [plain_field]), for which the
    update never fails; a path from another name makes [update_one] raise,
    which [_update_stats] logs and swallows, leaving the counters as they
    were; that path is not modelled, and the theorems about the counters
    assume plain names. *)
Definition stats_update (incs : list (string * Z)) (set_time : bool) : M unit :=
  fun s =>
    let d := match stats s with
             | Some d => d
             | None => mkStats [] (now s)
             end in
    let t := if set_time then now s else st_last_updated d in
    (Ok tt, set_stats s (Some (mkStats (apply_incs incs (st_counters d)) t))).

(** ** [MongoDBManager] methods *)

(** [_update_stats(added, duplicates, source)] *)
Definition update_stats_incs (added duplicates : Z) (source : option string)
  : list (string * Z) :=
  (if Z.gtb added 0 then [("total_articles", added)] else [])
  ++ (if Z.gtb duplicates 0 then [("total_duplicates", duplicates)] else [])
  ++ (match source with
      | Some x => if truthy source && Z.gtb added 0
                  then [("sources." ++ x ++ ".articles", added)] else []
      | None => [] end)
  ++ (match source with
      | Some x => if truthy source && Z.gtb duplicates 0
                  then [("sources." ++ x ++ ".duplicates", duplicates)] else []
      | None => [] end).

Definition _update_stats (added duplicates : Z) (source : option string) : M unit :=
  catch (stats_update (update_stats_incs added duplicates source) true)
        (fun _ => ret tt).

(** [_add_to_seen_urls(url, source)]: a [DuplicateKeyError] is passed over,
    any other exception is logged. *)
Definition _add_to_seen_urls (u : string) (source : option string) : M unit :=
  catch (t <- now_iso ;;
         seen_insert_one (mkSeen u t t source 1))
        (fun _ => ret tt).

(** [_track_duplicate(url, source)]: note that [source] is not passed on to
    [_update_stats]. *)
Definition _track_duplicate (u : string) (source : option string) : M unit :=
  catch (seen_touch u ;;;
         _update_stats 0 1 None)
        (fun _ => ret tt).

(** The dict returned by [add_article]. *)
Inductive add_result : Type :=
| AddSuccess (url : string) (total_articles : nat) (mongodb_id : nat)
| AddDuplicate (url : string)
| AddError (reason : string).

(** [result['status']] *)
Definition status (r : add_result) : string :=
  match r with
  | AddSuccess _ _ _ => "success"
  | AddDuplicate _ => "duplicate"
  | AddError _ => "error"
  end.

(** The body of the [try] block of [add_article], for a truthy [url]. *)
Definition add_article_try (a : article) (u : string) : M add_result :=
  n <- seen_count u ;;
  if Nat.ltb 0 n then
    _track_duplicate u (a_website_name a) ;;;
    ret (AddDuplicate u)
  else
    t <- now_iso ;;
    let a' := match a_scraped_at a with
              | Some _ => a
              | None => mkArticle (a_url a) (a_website_name a) (Some t) (a_bson_ok a)
              end in
    i <- articles_insert_one a' ;;
    _add_to_seen_urls u (a_website_name a) ;;;
    _update_stats 1 0 (a_website_name a) ;;;
    total <- articles_count ;;
    ret (AddSuccess u total i).

(** [add_article(article)] *)
Definition add_article (a : article) : M add_result :=
  match a_url a with
  | Some u =>
      if truthy (Some u) then
        catch (add_article_try a u)
              (fun e => match e with
                        | DuplicateKeyError =>
                            _track_duplicate u (a_website_name a) ;;;
                            ret (AddDuplicate u)
                        | _ => ret (AddError (exn_str e))
                        end)
      else ret (AddError "missing_url")
  | None => ret (AddError "missing_url")
  end.

(** The summary dict of [add_articles_batch]. *)
Record batch_summary : Type := mkSummary {
  b_total : nat;
  b_added : nat;
  b_duplicates : nat;
  b_errors : nat;
  b_duplicate_urls : list string
}.

(** One pass of the [for article in articles] loop on the result dict. *)
Definition tally (acc : batch_summary) (r : add_result) : batch_summary :=
  if String.eqb (status r) "success" then
    mkSummary (b_total acc) (S (b_added acc)) (b_duplicates acc) (b_errors acc)
              (b_duplicate_urls acc)
  else if String.eqb (status r) "duplicate" then
    mkSummary (b_total acc) (b_added acc) (S (b_duplicates acc)) (b_errors acc)
              (b_duplicate_urls acc ++ [match r with
                                        | AddDuplicate u => u
                                        | AddSuccess u _ _ => u
                                        | AddError _ => "" end])
  else
    mkSummary (b_total acc) (b_added acc) (b_duplicates acc) (S (b_errors acc))
              (b_duplicate_urls acc).

Fixpoint batch_loop (l : list article) (acc : batch_summary) : M batch_summary :=
  match l with
  | [] => ret acc
  | a :: l' => r <- add_article a ;; batch_loop l' (tally acc r)
  end.

(** [add_articles_batch(articles)] *)
Definition add_articles_batch (l : list article) : M batch_summary :=
  batch_loop l (mkSummary (length l) 0 0 0 []).

(** The view returned by [get_database_stats] (the fields the claims read). *)
Record db_stats_view : Type := mkView {
  v_total_articles : nat;
  v_total_seen_urls : nat;
  v_total_duplicates : Z;
  v_total_scraper_runs : nat
}.

(** [get_database_stats()] *)
Definition get_database_stats : M db_stats_view :=
  fun s =>
    let stats_doc :=
      match stats s with
      | Some d => d
      | None => mkStats [("total_articles", Z.of_nat (length (articles s)));
                         ("total_duplicates", 0%Z)] (now s)
      end in
    let total_articles := length (articles s) in
    let total_seen := length (seen_urls s) in
    let total_runs := length (scraper_runs s) in
    (Ok (mkView total_articles total_seen
                (match lookup_path "total_duplicates" (st_counters stats_doc) with
                 | Some v => v | None => 0%Z end)
                total_runs), s).

(** A fresh database after [__init__]: empty collections and the stats
    document of [_initialize_stats]. *)
Definition init_db (t : string) : db :=
  mkDb [] [] (Some (mkStats [("total_articles", 0%Z); ("total_duplicates", 0%Z);
                             ("total_scraper_runs", 0%Z)] t)) [] 0 t.

(** [start_scraper_run(source)]: insert the run, [$inc] total_scraper_runs
    (no [$set] of last_updated), return the run id. *)
Definition start_scraper_run (source : option string) : M nat :=
  t <- now_iso ;;
  i <- new_oid ;;
  (fun s => (Ok tt, set_runs s (scraper_runs s ++
                [mkRun i t "running" source 0 0 0 None]))) ;;;
  stats_update [("total_scraper_runs", 1%Z)] false ;;;
  ret i.

(** The update document of [update_scraper_run] applied to the run. *)
Definition run_update (articles_ duplicates errors : Z) (status_ : option string)
  (r : run_doc) : run_doc :=
  mkRun (r_id r) (r_started_at r)
        (match status_ with
         | Some st => if truthy status_ then st else r_status r
         | None => r_status r end)
        (r_source r)
        (if Z.gtb articles_ 0 then r_articles_scraped r + articles_ else r_articles_scraped r)
        (if Z.gtb duplicates 0 then r_duplicates_found r + duplicates else r_duplicates_found r)
        (if Z.gtb errors 0 then r_errors r + errors else r_errors r)
        (r_ended_at r).

(** [update_scraper_run(run_id, articles, duplicates, errors, status)]:
    [update_one({'_id': ObjectId(run_id)}, update_dict)], returns [None].
    Run ids are the ids [start_scraper_run] returns; a string that is not a
    valid ObjectId makes [ObjectId(run_id)] raise [InvalidId] before any
    write, and that error path is not modelled. *)
Definition update_scraper_run (run_id : nat) (articles_ duplicates errors : Z)
  (status_ : option string) : M unit :=
  fun s => (Ok tt, set_runs s (update_first (fun r => Nat.eqb (r_id r) run_id)
                                 (run_update articles_ duplicates errors status_)
                                 (scraper_runs s))).

(** [end_scraper_run(run_id, status)]: [$set] status and ended_at; as for
    [update_scraper_run], a malformed id ([InvalidId]) is not modelled. *)
Definition end_scraper_run (run_id : nat) (status_ : string) : M unit :=
  fun s => (Ok tt, set_runs s (update_first (fun r => Nat.eqb (r_id r) run_id)
             (fun r => mkRun (r_id r) (r_started_at r) status_ (r_source r)
                             (r_articles_scraped r) (r_duplicates_found r)
                             (r_errors r) (Some (now s)))
             (scraper_runs s))).

Definition find_run (run_id : nat) (s : db) : option run_doc :=
  find (fun r => Nat.eqb (r_id r) run_id) (scraper_runs s).

(** ** GridFS media uploads *)

(** A document of the GridFS files collection as written by PyMongo 4's
    [GridFS.put(data, **kwargs)]: the file id, its length, the stored bytes
    (the chunks) and the keyword arguments as extra fields.  PyMongo 4 no
    longer computes an [md5] checksum on upload, so a file has an [md5] field
    only when the caller passes one as a keyword argument. *)
Record gridfs_file : Type := mkFile {
  f_id : nat;
  f_length : nat;
  f_data : string;
  f_fields : list (string * string)
}.

(** The media side: the local files read with [open(path, 'rb')], the GridFS
    files collection, the ObjectId generator and the clock. *)
Record media_env : Type := mkMedia {
  disk : list (string * string);
  files : list gridfs_file;
  g_next_oid : nat;
  g_now : string
}.

Fixpoint assoc (k : string) (l : list (string * string)) : option string :=
  match l with
  | [] => None
  | (k', v) :: l' => if String.eqb k' k then Some v else assoc k l'
  end.

(** [gridfs.find_one({"md5": h})]: the first file whose [md5] field is [h]. *)
Definition gridfs_find_md5 (h : string) (e : media_env) : option gridfs_file :=
  find (fun f => match assoc "md5" (f_fields f) with
                 | Some v => String.eqb v h
                 | None => false end) (files e).

(** [gridfs.put(data, **kwargs)]: a new file with a fresh id. *)
Definition gridfs_put (data : string) (kwargs : list (string * string))
  (e : media_env) : nat * media_env :=
  let i := g_next_oid e in
  (i, mkMedia (disk e) (files e ++ [mkFile i (String.length data) data kwargs])
              (S i) (g_now e)).

(** [os.path.basename(path)]: the part after the last ['/']. *)
Fixpoint basename_aux (s acc : string) : string :=
  match s with
  | EmptyString => acc
  | String c s' => if Ascii.eqb c "/"%char then basename_aux s' ""
                   else basename_aux s' (acc ++ String c EmptyString)
  end.
Definition basename (p : string) : string := basename_aux p "".

(** Total number of bytes held by the GridFS chunks. *)
Definition stored_bytes (e : media_env) : nat :=
  fold_left (fun n f => n + f_length f) (files e) 0.

Section MediaUpload.

(** [hashlib.md5(content).hexdigest()] and [mimetypes.guess_type(path)[0]]. *)
Variable md5_hexdigest : string -> string.
Variable guess_type : string -> option string.

(** [TwitterMongoManager.upload_media_file(file_path, tweet_id, media_type)]:
    the returned id, [None] when the file does not exist. *)
Definition upload_media_file (file_path tweet_id media_type : string)
  (e : media_env) : option nat * media_env :=
  match assoc file_path (disk e) with
  | None => (None, e)
  | Some content =>
      let filename := basename file_path in
      let gridfs_filename := tweet_id ++ "_" ++ filename in
      let file_hash := md5_hexdigest content in
      match gridfs_find_md5 file_hash e with
      | Some existing => (Some (f_id existing), e)
      | None =>
          let content_type := match guess_type file_path with
                              | Some c => c
                              | None => "application/octet-stream" end in
          let (file_id, e') :=
            gridfs_put content
              [("filename", gridfs_filename); ("content_type", content_type);
               ("tweet_id", tweet_id); ("original_filename", filename);
               ("upload_date", g_now e); ("media_type", media_type)] e in
          (Some file_id, e')
      end
  end.

(** The [media_info] dict of [MediaUploader]. *)
Record media_info : Type := mkInfo {
  mi_file_path : string;
  mi_relative_path : string;
  mi_filename : string;
  mi_size : nat;
  mi_is_video : bool
}.

(** The counters of [MediaUploader.stats] that [upload_file_to_gridfs]
    changes. *)
Record uploader_stats : Type := mkUStats {
  us_duplicates_detected : nat;
  us_files_skipped : nat;
  us_files_uploaded : nat;
  us_total_size_uploaded : nat
}.

Inductive upload_ref : Type :=
| GridfsId (n : nat)
| DryRunId.

(** [MediaUploader.upload_file_to_gridfs(media_info)] *)
Definition upload_file_to_gridfs (dry_run : bool) (mi : media_info)
  (st : uploader_stats) (e : media_env)
  : option upload_ref * uploader_stats * media_env :=
  if dry_run then (Some DryRunId, st, e) else
  match assoc (mi_file_path mi) (disk e) with
  | None => (None, st, e)
  | Some content =>
      let file_hash := md5_hexdigest content in
      match gridfs_find_md5 file_hash e with
      | Some existing =>
          (Some (GridfsId (f_id existing)),
           mkUStats (S (us_duplicates_detected st)) (S (us_files_skipped st))
                    (us_files_uploaded st) (us_total_size_uploaded st), e)
      | None =>
          let content_type := match guess_type (mi_file_path mi) with
                              | Some c => c
                              | None => "application/octet-stream" end in
          let (gridfs_id, e') :=
            gridfs_put content
              [("filename", mi_filename mi); ("content_type", content_type);
               ("upload_date", g_now e); ("original_path", mi_relative_path mi);
               ("media_type", if mi_is_video mi then "video" else "photo")] e in
          (Some (GridfsId gridfs_id),
           mkUStats (us_duplicates_detected st) (us_files_skipped st)
                    (S (us_files_uploaded st))
                    (us_total_size_uploaded st + mi_size mi), e')
      end
  end.

End MediaUpload.

(** ** Sequences of submissions and reachable states *)

(** [Submit] applied to each article in turn, collecting the results. *)
Fixpoint submit_all (l : list article) : M (list add_result) :=
  match l with
  | [] => ret []
  | a :: l' => r <- add_article a ;; rs <- submit_all l' ;; ret (r :: rs)
  end.

Definition set_now (s : db) (t : string) : db :=
  mkDb (articles s) (seen_urls s) (stats s) (scraper_runs s) (next_oid s) t.

(** The states a store reaches from a fresh database through [add_article]
    calls, while the clock moves on. *)
Inductive reachable : db -> Prop :=
| reach_init (t : string) : reachable (init_db t)
| reach_add (s : db) (a : article) : reachable s -> reachable (snd (add_article a s))
| reach_tick (s : db) (t : string) : reachable s -> reachable (set_now s t).

(** The logical keys held by the articles collection and by seen_urls. *)
Definition article_keys (s : db) : list (option string) :=
  map (fun d => a_url (ad_article d)) (articles s).
Definition seen_keys (s : db) : list (option string) :=
  map (fun e => Some (se_url e)) (seen_urls s).

Definition in_seen (u : string) (s : db) : bool :=
  existsb (fun e => String.eqb (se_url e) u) (seen_urls s).

(** The article document [add_article] inserts. *)
Definition inserted_doc (a : article) (i : nat) (t : string) : article_doc :=
  mkArticleDoc i (match a_scraped_at a with
                  | Some _ => a
                  | None => mkArticle (a_url a) (a_website_name a) (Some t) (a_bson_ok a)
                  end).

(** The state after the duplicate path [_track_duplicate]. *)
Definition dup_state (u : string) (src : option string) (s : db) : db :=
  snd (_track_duplicate u src s).

Definition touch_entry (t : string) (e : seen_entry) : seen_entry :=
  mkSeen (se_url e) (se_first_seen e) t (se_source e) (se_seen_count e + 1)%Z.

(** ** Lemmas on the model *)

Lemma map_update_first {T U} (g : T -> U) (p : T -> bool) (f : T -> T) (l : list T) :
  (forall x, g (f x) = g x) -> map g (update_first p f l) = map g l.
Proof.
  intros Hf; induction l as [|x l IH]; simpl; [reflexivity|].
  destruct (p x); simpl; rewrite ?Hf, ?IH; reflexivity.
Qed.


Lemma seen_count_pos (u : string) (s : db) :
  Nat.ltb 0 (Nat.min 1 (length (filter (fun e => String.eqb (se_url e) u)
                                       (seen_urls s)))) = in_seen u s.
Proof.
  unfold in_seen; induction (seen_urls s) as [|e l IH]; simpl; [reflexivity|].
  destruct (String.eqb (se_url e) u); simpl; [reflexivity | exact IH].
Qed.

Lemma bind_ok {A B} (m : M A) (k : A -> M B) (s : db) (a : A) (s' : db) :
  m s = (Ok a, s') -> bind m k s = k a s'.
Proof. intros H; unfold bind; rewrite H; reflexivity. Qed.

Lemma seen_count_eq (u : string) (s : db) :
  seen_count u s = (Ok (if in_seen u s then 1 else 0), s).
Proof.
  unfold seen_count, in_seen; f_equal; f_equal.
  induction (seen_urls s) as [|e l IH]; simpl; [reflexivity|].
  destruct (String.eqb (se_url e) u); simpl; [reflexivity | exact IH].
Qed.

Lemma track_duplicate_eq (u : string) (src : option string) (s : db) :
  _track_duplicate u src s = (Ok tt, dup_state u src s).
Proof. reflexivity. Qed.

Lemma dup_state_frame (u : string) (src : option string) (s : db) :
  articles (dup_state u src s) = articles s /\
  seen_urls (dup_state u src s) =
    update_first (fun e => String.eqb (se_url e) u) (touch_entry (now s)) (seen_urls s) /\
  scraper_runs (dup_state u src s) = scraper_runs s /\
  next_oid (dup_state u src s) = next_oid s /\
  now (dup_state u src s) = now s.
Proof. repeat split; reflexivity. Qed.

Lemma update_stats_frame (ad du : Z) (src : option string) (s : db) :
  exists d, _update_stats ad du src s = (Ok tt, set_stats s (Some d)).
Proof. eexists; reflexivity. Qed.

Definition key_eqb (u : string) (d : article_doc) : bool :=
  opt_eqb (a_url (ad_article d)) u.

(** What [add_article] does, case by case. *)
Lemma add_article_spec (a : article) (s : db) :
  match a_url a with
  | Some u =>
      if truthy (Some u) then
        if in_seen u s then
          add_article a s = (Ok (AddDuplicate u), dup_state u (a_website_name a) s)
        else if negb (a_bson_ok a) then
          add_article a s = (Ok (AddError "cannot encode object"), s)
        else if existsb (key_eqb u) (articles s) then
          add_article a s = (Ok (AddDuplicate u), dup_state u (a_website_name a) s)
        else
          exists s',
            add_article a s = (Ok (AddSuccess u (S (length (articles s))) (next_oid s)), s') /\
            articles s' = (articles s ++ [inserted_doc a (next_oid s) (now s)])%list /\
            seen_urls s' = (seen_urls s ++ [mkSeen u (now s) (now s) (a_website_name a) 1])%list /\
            scraper_runs s' = scraper_runs s /\
            next_oid s' = S (next_oid s) /\
            now s' = now s
      else add_article a s = (Ok (AddError "missing_url"), s)
  | None => add_article a s = (Ok (AddError "missing_url"), s)
  end.
Proof.
  destruct a as [[u|] src sa ok]; cbn [a_url a_website_name a_bson_ok a_scraped_at];
    [|reflexivity].
  unfold add_article; cbn [a_url a_website_name a_bson_ok a_scraped_at].
  destruct (truthy (Some u)) eqn:Ht; [|reflexivity].
  unfold catch, add_article_try.
  rewrite (bind_ok _ _ s _ s (seen_count_eq u s)).
  cbv beta.
  destruct (in_seen u s) eqn:Hs; [reflexivity|].
  assert (Hs' : existsb (fun e' => String.eqb (se_url e') u) (seen_urls s) = false)
    by exact Hs.
  destruct ok; cbn [negb].
  2:{ destruct sa; reflexivity. }
  destruct (existsb (key_eqb u) (articles s)) eqn:Hk.
  { assert (Hk' : existsb (fun d => opt_eqb (a_url (ad_article d)) u) (articles s) = true)
      by exact Hk.
    destruct sa; cbv [bind now_iso articles_insert_one ret]; cbn;
      rewrite Hk'; reflexivity. }
  assert (Hk' : existsb (fun d => opt_eqb (a_url (ad_article d)) u) (articles s) = false)
    by exact Hk.
  destruct sa; (eexists; split;
    [ cbv [bind now_iso articles_insert_one ret _add_to_seen_urls catch
             seen_insert_one articles_count]; cbn; rewrite Hk';
      cbn [se_url seen_urls bump_oid set_articles]; rewrite Hs';
      cbn; rewrite length_app, Nat.add_comm; reflexivity
    | repeat split; reflexivity ]).
Qed.

(** ** The key invariant of reachable states

    The articles collection and seen_urls hold the same keys, in the same
    order, without repetition, and every key is a non-empty URL. *)
Definition key_inv (s : db) : Prop :=
  NoDup (article_keys s) /\ article_keys s = seen_keys s /\
  Forall (fun k => truthy k = true) (article_keys s).

Lemma in_seen_iff (u : string) (s : db) :
  in_seen u s = true <-> In (Some u) (seen_keys s).
Proof.
  unfold in_seen, seen_keys; rewrite existsb_exists, in_map_iff; split.
  - intros [e [He Hu]]; apply String.eqb_eq in Hu; exists e; subst; auto.
  - intros [e [Hu He]]; injection Hu as Hu; exists e; split; [exact He|].
    apply String.eqb_eq; exact Hu.
Qed.

Lemma in_articles_iff (u : string) (s : db) :
  existsb (key_eqb u) (articles s) = true <-> In (Some u) (article_keys s).
Proof.
  unfold key_eqb, article_keys; rewrite existsb_exists, in_map_iff; split.
  - intros [d [Hd Hu]]; exists d; split; [|exact Hd].
    destruct (a_url (ad_article d)) as [x|]; [|discriminate].
    apply String.eqb_eq in Hu; subst; reflexivity.
  - intros [d [Hu Hd]]; exists d; split; [exact Hd|]; rewrite Hu.
    apply String.eqb_refl.
Qed.

Lemma dup_state_keys (u : string) (src : option string) (s : db) :
  article_keys (dup_state u src s) = article_keys s /\
  seen_keys (dup_state u src s) = seen_keys s.
Proof.
  destruct (dup_state_frame u src s) as (Ha & Hs & _).
  unfold article_keys, seen_keys; rewrite Ha, Hs; split; [reflexivity|].
  apply map_update_first; reflexivity.
Qed.

Lemma inserted_doc_key (a : article) (i : nat) (t : string) :
  a_url (ad_article (inserted_doc a i t)) = a_url a.
Proof. unfold inserted_doc; destruct (a_scraped_at a); reflexivity. Qed.

(** [add_article] preserves the key invariant. *)
Lemma add_article_key_inv (a : article) (s : db) :
  key_inv s -> key_inv (snd (add_article a s)).
Proof.
  intros (Hnd & Heq & Htr).
  pose proof (add_article_spec a s) as H.
  destruct (a_url a) as [u|] eqn:Hu; [|rewrite H; split; auto].
  destruct (truthy (Some u)) eqn:Ht; [|rewrite H; split; auto].
  destruct (in_seen u s) eqn:Hs.
  { rewrite H; simpl; destruct (dup_state_keys u (a_website_name a) s) as [H1 H2].
    unfold key_inv; rewrite H1, H2; rewrite <- Heq, <- H1 in *; auto. }
  destruct (negb (a_bson_ok a)); [rewrite H; split; auto|].
  destruct (existsb (key_eqb u) (articles s)) eqn:Hk.
  { apply in_articles_iff in Hk; rewrite Heq in Hk; apply in_seen_iff in Hk; congruence. }
  destruct H as (s' & -> & Ha & Hse & _); simpl.
  assert (Hka : article_keys s' = (article_keys s ++ [Some u])%list).
  { unfold article_keys; rewrite Ha, map_app; cbn [map]; rewrite inserted_doc_key, Hu;
      reflexivity. }
  assert (Hks : seen_keys s' = (seen_keys s ++ [Some u])%list).
  { unfold seen_keys; rewrite Hse, map_app; reflexivity. }
  unfold key_inv; rewrite Hka, Hks, Heq; repeat split.
  - apply NoDup_app; [rewrite <- Heq; exact Hnd | constructor; [intros []|constructor] |].
    intros k Hin [<- | []]; apply in_seen_iff in Hin; congruence.
  - apply Forall_app; split; [rewrite <- Heq; exact Htr | constructor; auto].
Qed.

Lemma reachable_key_inv (s : db) : reachable s -> key_inv s.
Proof.
  induction 1 as [t | s a _ IH | s t _ IH].
  - repeat split; constructor.
  - apply add_article_key_inv; exact IH.
  - exact IH.
Qed.

(** The three outcomes of [add_article] in any state: an error that leaves
    the database as it was, the duplicate path, or a successful insert that
    appends the key to both collections. *)
Lemma add_article_cases (a : article) (s : db) :
  (exists r, add_article a s = (Ok (AddError r), s)) \/
  (exists u, a_url a = Some u /\
     add_article a s = (Ok (AddDuplicate u), dup_state u (a_website_name a) s)) \/
  (exists u s', a_url a = Some u /\ truthy (Some u) = true /\
     ~ In (Some u) (seen_keys s) /\ ~ In (Some u) (article_keys s) /\
     add_article a s = (Ok (AddSuccess u (S (length (articles s))) (next_oid s)), s') /\
     article_keys s' = (article_keys s ++ [Some u])%list /\
     seen_urls s' = (seen_urls s ++ [mkSeen u (now s) (now s) (a_website_name a) 1])%list /\
     scraper_runs s' = scraper_runs s /\ now s' = now s).
Proof.
  pose proof (add_article_spec a s) as H.
  destruct (a_url a) as [u|] eqn:Hu; [|left; eauto].
  destruct (truthy (Some u)) eqn:Ht; [|left; eauto].
  destruct (in_seen u s) eqn:Hs; [right; left; eauto|].
  destruct (negb (a_bson_ok a)); [left; eauto|].
  destruct (existsb (key_eqb u) (articles s)) eqn:Hk; [right; left; eauto|].
  destruct H as (s' & Heq & Ha & Hse & Hr & _ & Hn).
  right; right; exists u, s'; repeat split; auto.
  - intros Hin; apply in_seen_iff in Hin; congruence.
  - intros Hin; apply in_articles_iff in Hin; congruence.
  - unfold article_keys; rewrite Ha, map_app; cbn [map]; rewrite inserted_doc_key, Hu;
      reflexivity.
Qed.

Lemma add_article_never_raises (a : article) (s : db) :
  exists r s', add_article a s = (Ok r, s').
Proof.
  destruct (add_article_cases a s) as [[r H] | [[u [_ H]] | (u & s' & _ & _ & _ & _ & H & _)]];
    eauto.
Qed.

Lemma submit_all_cons (a : article) (l : list article) (s s1 s2 : db)
  (r : add_result) (rs : list add_result) :
  add_article a s = (Ok r, s1) -> submit_all l s1 = (Ok rs, s2) ->
  submit_all (a :: l) s = (Ok (r :: rs), s2).
Proof. intros H1 H2; simpl; unfold bind; rewrite H1, H2; reflexivity. Qed.

Lemma submit_all_ok (l : list article) (s : db) :
  exists rs s', submit_all l s = (Ok rs, s') /\ length rs = length l.
Proof.
  revert s; induction l as [|a l IH]; intros s.
  - exists [], s; split; reflexivity.
  - destruct (add_article_never_raises a s) as (r & s1 & H1).
    destruct (IH s1) as (rs & s2 & H2 & Hl).
    exists (r :: rs), s2; split; [eapply submit_all_cons; eauto | simpl; congruence].
Qed.

(** Per-outcome counts over a list of results. *)
Definition count_status (st : string) (rs : list add_result) : nat :=
  length (filter (fun r => String.eqb (status r) st) rs).

Definition dup_urls (rs : list add_result) : list string :=
  flat_map (fun r => match r with AddDuplicate u => [u] | _ => [] end) rs.

Lemma batch_loop_fold (l : list article) (acc : batch_summary) (s : db) :
  exists rs s', submit_all l s = (Ok rs, s') /\
    batch_loop l acc s = (Ok (fold_left tally rs acc), s').
Proof.
  revert acc s; induction l as [|a l IH]; intros acc s.
  - exists [], s; split; reflexivity.
  - destruct (add_article_never_raises a s) as (r & s1 & H1).
    destruct (IH (tally acc r) s1) as (rs & s2 & H2 & H3).
    exists (r :: rs), s2; split; [eapply submit_all_cons; eauto|].
    simpl; unfold bind; rewrite H1; exact H3.
Qed.

Lemma fold_tally (rs : list add_result) (acc : batch_summary) :
  fold_left tally rs acc =
  mkSummary (b_total acc) (b_added acc + count_status "success" rs)
            (b_duplicates acc + count_status "duplicate" rs)
            (b_errors acc + count_status "error" rs)
            (b_duplicate_urls acc ++ dup_urls rs).
Proof.
  revert acc; induction rs as [|r rs IH]; intros acc.
  - destruct acc; simpl; rewrite !Nat.add_0_r, app_nil_r; reflexivity.
  - simpl fold_left; rewrite IH; destruct r; unfold tally, count_status, dup_urls;
      simpl; f_equal; try lia; try (rewrite <- app_assoc; reflexivity).
Qed.

Lemma count_status_total (rs : list add_result) :
  count_status "success" rs + count_status "duplicate" rs + count_status "error" rs
  = length rs.
Proof.
  induction rs as [|r rs IH]; [reflexivity|].
  destruct r; unfold count_status in *; simpl; lia.
Qed.

Lemma dup_urls_length (rs : list add_result) :
  length (dup_urls rs) = count_status "duplicate" rs.
Proof.
  induction rs as [|r rs IH]; [reflexivity|].
  destruct r; unfold count_status, dup_urls in *; simpl in *; lia.
Qed.

(** ** Further [MongoDBManager] methods *)

(** [is_duplicate(url)]: [count_documents({'url': url}, limit=1) > 0] on
    seen_urls. *)
Definition is_duplicate (u : string) : M bool :=
  n <- seen_count u ;; ret (Nat.ltb 0 n).

(** [get_all_articles()]: [find({}, {'_id': 0})] on the articles. *)
Definition get_all_articles : M (list article) :=
  fun s => (Ok (map ad_article (articles s)), s).

(** [get_article_by_id(article_id)]: [find_one({'url': article_id},
    {'_id': 0})]. *)
Definition get_article_by_id (article_id : string) : M (option article) :=
  fun s => (Ok (option_map ad_article (find (key_eqb article_id) (articles s))), s).


(** A numeric field of the stats document; [None] when the document or the
    field is missing. *)
Definition counter (p : string) (s : db) : option Z :=
  match stats s with
  | Some d => lookup_path p (st_counters d)
  | None => None
  end.

(** The repeat sightings recorded by seen_urls: the sum of [seen_count - 1]. *)
Definition repeat_sightings (l : list seen_entry) : Z :=
  fold_right (fun e acc => (se_seen_count e - 1 + acc)%Z) 0%Z l.

(** The states a store reaches from a fresh database through any sequence of
    the writing methods of [MongoDBManager], while the clock moves on. *)
Inductive reachable_full : db -> Prop :=
| rf_init (t : string) : reachable_full (init_db t)
| rf_add (s : db) (a : article) :
    reachable_full s -> reachable_full (snd (add_article a s))
| rf_start (s : db) (src : option string) :
    reachable_full s -> reachable_full (snd (start_scraper_run src s))
| rf_update (s : db) (rid : nat) (da dd de : Z) (st : option string) :
    reachable_full s -> reachable_full (snd (update_scraper_run rid da dd de st s))
| rf_end (s : db) (rid : nat) (st : string) :
    reachable_full s -> reachable_full (snd (end_scraper_run rid st s))
| rf_tick (s : db) (t : string) :
    reachable_full s -> reachable_full (set_now s t).

(** A field name that MongoDB accepts as one component of a dotted [$inc]
    path and that PyMongo encodes: ASCII characters other than NUL, no
    ['.'] and no leading ['$'].  With such names the paths written by the
    stats updates are valid and never clash, so the flat path map models
    them exactly.  Any other name is outside the model: PyMongo refuses a
    key holding NUL ([InvalidDocument]) and the server a path with an empty
    component or a leading ['$'], and the [except] of [_update_stats]
    swallows the error, so the counters are then not updated at all. *)
Fixpoint plain_chars (x : string) : bool :=
  match x with
  | EmptyString => true
  | String c x' =>
      Nat.ltb 0 (nat_of_ascii c) && Nat.ltb (nat_of_ascii c) 128 &&
      negb (Ascii.eqb c "."%char) && plain_chars x'
  end.

Definition plain_field (x : string) : bool :=
  plain_chars x &&
  match x with String c _ => negb (Ascii.eqb c "$"%char) | EmptyString => true end.

Definition plain_opt (o : option string) : bool :=
  match o with Some x => plain_field x | None => true end.


(** One element of a JSON array read by [merge_old_json_files]: a dict (an
    article) or any other value, on which [article.get] raises
    [AttributeError].  A dict whose 'url' is truthy but not a string (on
    which the log line [url[:80]] raises after the insert) is not
    modelled. *)
Inductive json_item : Type :=
| JDictItem (a : article)
| JOtherItem.

(** The value [json.load] gives for a file: a list; a dict, with the list
    under its ['articles'] key if it has one; a JSON string, iterated like a
    list of one-character strings; any other scalar ([len] raises
    [TypeError]); or a file that cannot be read or parsed. *)
Inductive json_file : Type :=
| JList (l : list json_item)
| JDict (articles_field : option (list json_item))
| JString (s : string)
| JScalar
| JUnreadable.

(** [add_articles_batch] on the items of a JSON file: [None] when an item is
    not a dict (the exception leaves the batch; the articles before it have
    been added). *)
Fixpoint batch_items (l : list json_item) (acc : batch_summary) (s : db)
  : option batch_summary * db :=
  match l with
  | [] => (Some acc, s)
  | JOtherItem :: _ => (None, s)
  | JDictItem a :: l' =>
      match add_article a s with
      | (Ok r, s1) => batch_items l' (tally acc r) s1
      | (Raise _, s1) => (None, s1)
      end
  end.

(** The list [add_articles_batch] receives for a file, [None] when
    [json.load] or [len] raises first. *)
Definition file_items (v : json_file) : option (list json_item) :=
  match v with
  | JList l => Some l
  | JDict (Some l) => Some l
  | JDict None => Some []
  | JString str => Some (repeat JOtherItem (String.length str))
  | JScalar => None
  | JUnreadable => None
  end.

(** [filename.endswith('.json') and 'scraped_articles' in filename] *)
Definition ends_with (suffix str : string) : bool :=
  let n := String.length str in
  let m := String.length suffix in
  Nat.leb m n && String.eqb (substring (n - m) m str) suffix.

Definition is_merge_file (filename : string) : bool :=
  ends_with ".json" filename &&
  match String.index 0 "scraped_articles" filename with
  | Some _ => true
  | None => false
  end.

(** The stats dict of [merge_old_json_files]. *)
Record merge_stats : Type := mkMergeStats {
  m_files_processed : nat;
  m_articles_added : nat;
  m_duplicates_found : nat
}.

Fixpoint merge_files (fs : list (string * json_file)) (ms : merge_stats) (s : db)
  : merge_stats * db :=
  match fs with
  | [] => (ms, s)
  | (_, v) :: fs' =>
      match file_items v with
      | None => merge_files fs' ms s
      | Some l =>
          match batch_items l (mkSummary (length l) 0 0 0 []) s with
          | (Some r, s1) =>
              merge_files fs'
                (mkMergeStats (S (m_files_processed ms)) (m_articles_added ms + b_added r)
                              (m_duplicates_found ms + b_duplicates r)) s1
          | (None, s1) => merge_files fs' ms s1
          end
      end
  end.

(** [merge_old_json_files(output_dir)]: the directory listing, in the order
    [os.listdir] gives it, as (file name, content) pairs; [None] when the
    directory does not exist. *)
Definition merge_old_json_files (dir : option (list (string * json_file))) (s : db)
  : merge_stats * db :=
  let json_files := match dir with
                    | Some l => filter (fun fv => is_merge_file (fst fv)) l
                    | None => []
                    end in
  merge_files json_files (mkMergeStats 0 0 0) s.



(** ** [TwitterMongoManager]: tweets, tracked users and their stats *)

(** One entry of [tweet['media_files']]: [media_file.get('file')],
    [media_file.get('type')] and [media_file.get('size')], [None] when the key
    is missing. *)
Record media_ref : Type := mkMediaRef {
  mf_file : option string;
  mf_type : option string;
  mf_size : option Z
}.

(** One entry of [tweet['media_files_gridfs']]. *)
Record stored_media : Type := mkStoredMedia {
  sm_gridfs_id : nat;
  sm_type : string;
  sm_original_filename : string;
  sm_size : Z
}.

(** A tweet dict as [add_tweet] reads it: [tweet.get('tweet_id')] and
    [tweet.get('id')] (ids as strings), ['scraped_at'] if present, the
    truthiness of [tweet.get('has_media')], [tweet.get('media_files', [])],
    [tweet.get('username')], [tweet.get('original_author')],
    [tweet.get('keyword')], the two fields [store_media_for_tweet] writes, and
    whether the dict is BSON encodable. *)
Record tweet : Type := mkTweet {
  tw_tweet_id : option string;
  tw_id : option string;
  tw_scraped_at : option string;
  tw_has_media : bool;
  tw_media_files : list media_ref;
  tw_username : option string;
  tw_original_author : option string;
  tw_keyword : option string;
  tw_media_files_gridfs : option (list stored_media);
  tw_has_media_gridfs : option bool;
  tw_bson_ok : bool
}.

Record tweet_doc : Type := mkTweetDoc {
  td_id : nat;
  td_tweet : tweet
}.

(** A document of the twitter_users collection. *)
Record user_doc : Type := mkUser {
  u_username : string;
  u_display_name : string;
  u_added_at : string;
  u_total_tweets : Z;
  u_last_scraped : option string
}.

(** The Twitter database: tweets, tracked users, the twitter_stats document,
    the ObjectId generator, the clock, and the GridFS side. *)
Record tdb : Type := mkTdb {
  tweets : list tweet_doc;
  twitter_users : list user_doc;
  twitter_stats : option stats_doc;
  t_next_oid : nat;
  t_now : string;
  t_media : media_env
}.

Definition set_tweets (s : tdb) (l : list tweet_doc) : tdb :=
  mkTdb l (twitter_users s) (twitter_stats s) (t_next_oid s) (t_now s) (t_media s).
Definition set_users (s : tdb) (l : list user_doc) : tdb :=
  mkTdb (tweets s) l (twitter_stats s) (t_next_oid s) (t_now s) (t_media s).
Definition set_tstats (s : tdb) (d : option stats_doc) : tdb :=
  mkTdb (tweets s) (twitter_users s) d (t_next_oid s) (t_now s) (t_media s).
Definition set_media (s : tdb) (e : media_env) : tdb :=
  mkTdb (tweets s) (twitter_users s) (twitter_stats s) (t_next_oid s) (t_now s) e.
Definition set_tnow (s : tdb) (t : string) : tdb :=
  mkTdb (tweets s) (twitter_users s) (twitter_stats s) (t_next_oid s) t (t_media s).

(** [twitter_stats_collection.update_one({}, update, upsert=upsert)] with
    [update = {'$inc': incs}] and, when [set_time], [{'$set': {'last_updated':
    now}}].  As for [stats_update], only paths built from plain names (see
    [plain_field]) are modelled; for them the update never fails. *)
Definition tstats_update (incs : list (string * Z)) (set_time upsert : bool) (s : tdb)
  : tdb :=
  match twitter_stats s with
  | Some d =>
      set_tstats s (Some (mkStats (apply_incs incs (st_counters d))
                                  (if set_time then t_now s else st_last_updated d)))
  | None =>
      if upsert then set_tstats s (Some (mkStats (apply_incs incs []) (t_now s)))
      else s
  end.

(** The [$inc] document of [_update_stats(tweets, username, keyword)]. *)
Definition twitter_stats_incs (tweets_ : Z) (username keyword : option string)
  : list (string * Z) :=
  (if Z.gtb tweets_ 0 then [("total_tweets", tweets_)] else [])
  ++ (match username with
      | Some u => if truthy username then [("users." ++ u ++ ".tweets", tweets_)] else []
      | None => [] end)
  ++ (match keyword with
      | Some k => if truthy keyword
                  then [("keywords." ++ k ++ ".tweets", tweets_);
                        ("total_keywords_searches", 1%Z)] else []
      | None => [] end).

(** [TwitterMongoManager._update_stats(tweets, username, keyword)] *)
Definition twitter_update_stats (tweets_ : Z) (username keyword : option string)
  (s : tdb) : tdb :=
  tstats_update (twitter_stats_incs tweets_ username keyword) true true s.

Inductive tweet_result : Type :=
| TwSuccess (tweet_id : string) (total_tweets : nat) (media_files_stored : nat)
            (mongodb_id : nat)
| TwDuplicate (tweet_id : string)
| TwError (reason : string).

Definition tw_status (r : tweet_result) : string :=
  match r with
  | TwSuccess _ _ _ _ => "success"
  | TwDuplicate _ => "duplicate"
  | TwError _ => "error"
  end.

Section TwitterStore.

Variable md5_hexdigest : string -> string.
Variable guess_type : string -> option string.

(** The [for media_file in media_files] loop of [store_media_for_tweet]. *)
Fixpoint store_media_loop (tweet_id : string) (l : list media_ref) (e : media_env)
  : list stored_media * media_env :=
  match l with
  | [] => ([], e)
  | m :: l' =>
      let local_path := match mf_file m with Some p => p | None => "" end in
      if truthy (Some local_path) then
        let media_type := match mf_type m with Some ty => ty | None => "photo" end in
        let (gridfs_id, e1) :=
          upload_media_file md5_hexdigest guess_type local_path tweet_id media_type e in
        let (rest, e2) := store_media_loop tweet_id l' e1 in
        match gridfs_id with
        | Some g =>
            (mkStoredMedia g media_type (basename local_path)
                           (match mf_size m with Some z => z | None => 0%Z end) :: rest, e2)
        | None => (rest, e2)
        end
      else store_media_loop tweet_id l' e
  end.

(** [store_media_for_tweet(tweet)] *)
Definition store_media_for_tweet (t : tweet) (e : media_env) : tweet * media_env :=
  match tw_tweet_id t with
  | Some tid =>
      if truthy (Some tid) then
        let (stored, e') := store_media_loop tid (tw_media_files t) e in
        (mkTweet (tw_tweet_id t) (tw_id t) (tw_scraped_at t) (tw_has_media t)
                 (tw_media_files t) (tw_username t) (tw_original_author t) (tw_keyword t)
                 (Some stored) (Some (Nat.ltb 0 (length stored))) (tw_bson_ok t), e')
      else (t, e)
  | None => (t, e)
  end.

(** The tweet dict after the first two assignments of the [try] block of
    [add_tweet]: scraped_at when missing, and [tweet['tweet_id'] = tweet_id]. *)
Definition prepare_tweet (t : tweet) (tid now_ : string) : tweet :=
  mkTweet (Some tid) (tw_id t)
          (match tw_scraped_at t with Some x => Some x | None => Some now_ end)
          (tw_has_media t) (tw_media_files t) (tw_username t) (tw_original_author t)
          (tw_keyword t) (tw_media_files_gridfs t) (tw_has_media_gridfs t) (tw_bson_ok t).

(** [add_tweet(tweet)]: the unique index on [tweet_id] makes [insert_one]
    raise [DuplicateKeyError]; the media are stored before the insert. *)
Definition add_tweet (t : tweet) (s : tdb) : tweet_result * tdb :=
  let tweet_id := if truthy (tw_tweet_id t) then tw_tweet_id t else tw_id t in
  match tweet_id with
  | Some tid =>
      if truthy (Some tid) then
        let t1 := prepare_tweet t tid (t_now s) in
        let (t2, e) :=
          if tw_has_media t1 && negb (Nat.eqb (length (tw_media_files t1)) 0)
          then store_media_for_tweet t1 (t_media s)
          else (t1, t_media s) in
        let s1 := set_media s e in
        if negb (tw_bson_ok t2) then (TwError (exn_str InvalidDocument), s1)
        else if existsb (fun d => opt_eqb (tw_tweet_id (td_tweet d)) tid) (tweets s1)
        then (TwDuplicate tid, s1)
        else
          let oid := t_next_oid s1 in
          let s2 := mkTdb (tweets s1 ++ [mkTweetDoc oid t2]) (twitter_users s1)
                          (twitter_stats s1) (S oid) (t_now s1) (t_media s1) in
          let s3 := twitter_update_stats 1
                      (if truthy (tw_username t2) then tw_username t2
                       else tw_original_author t2)
                      (tw_keyword t2) s2 in
          (TwSuccess tid (length (tweets s3))
                     (match tw_media_files_gridfs t2 with
                      | Some l => length l | None => 0 end) oid, s3)
      else (TwError "missing_id", s)
  | None => (TwError "missing_id", s)
  end.

(** The summary dict of [add_tweets_batch]. *)
Record tweet_summary : Type := mkTweetSummary {
  tb_total : nat;
  tb_added : nat;
  tb_duplicates : nat;
  tb_errors : nat
}.

Definition tweet_tally (acc : tweet_summary) (r : tweet_result) : tweet_summary :=
  if String.eqb (tw_status r) "success" then
    mkTweetSummary (tb_total acc) (S (tb_added acc)) (tb_duplicates acc) (tb_errors acc)
  else if String.eqb (tw_status r) "duplicate" then
    mkTweetSummary (tb_total acc) (tb_added acc) (S (tb_duplicates acc)) (tb_errors acc)
  else
    mkTweetSummary (tb_total acc) (tb_added acc) (tb_duplicates acc) (S (tb_errors acc)).

Fixpoint tweets_loop (l : list tweet) (acc : tweet_summary) (s : tdb)
  : tweet_summary * tdb :=
  match l with
  | [] => (acc, s)
  | t :: l' => let (r, s1) := add_tweet t s in tweets_loop l' (tweet_tally acc r) s1
  end.

(** [add_tweets_batch(tweets)] *)
Definition add_tweets_batch (l : list tweet) (s : tdb) : tweet_summary * tdb :=
  tweets_loop l (mkTweetSummary (length l) 0 0 0) s.

End TwitterStore.

Inductive user_result : Type :=
| UserSuccess (username : string)
| UserDuplicate.

(** [add_user(username, display_name)]: the unique index on [username]
    makes [insert_one] raise [DuplicateKeyError]. *)
Definition add_user (username : string) (display_name : option string) (s : tdb)
  : user_result * tdb :=
  if existsb (fun u => String.eqb (u_username u) username) (twitter_users s)
  then (UserDuplicate, s)
  else
    let doc := mkUser username
                 (match display_name with
                  | Some d => if truthy display_name then d else username
                  | None => username end)
                 (t_now s) 0 None in
    (UserSuccess username,
     tstats_update [("total_users", 1%Z)] false true
       (set_users s (twitter_users s ++ [doc]))).

(** [delete_one(filter)]: the list without its first matching document,
    [None] when nothing matches ([deleted_count == 0]). *)
Fixpoint delete_first {T} (p : T -> bool) (l : list T) : option (list T) :=
  match l with
  | [] => None
  | x :: l' => if p x then Some l'
               else match delete_first p l' with
                    | Some l'' => Some (x :: l'')
                    | None => None
                    end
  end.

Inductive remove_result : Type :=
| RemoveSuccess
| RemoveNotFound.

(** [remove_user(username)]: the [$inc] of total_users by -1 has no upsert. *)
Definition remove_user (username : string) (s : tdb) : remove_result * tdb :=
  match delete_first (fun u => String.eqb (u_username u) username) (twitter_users s) with
  | Some l => (RemoveSuccess, tstats_update [("total_users", (-1)%Z)] false false
                                            (set_users s l))
  | None => (RemoveNotFound, s)
  end.

(** A Twitter database after [__init__]: empty collections, the stats
    document of [_initialize_stats], and a GridFS. *)
Definition init_tdb (t : string) (e : media_env) : tdb :=
  mkTdb [] [] (Some (mkStats [("total_tweets", 0%Z); ("total_users", 0%Z);
                              ("total_keywords_searches", 0%Z)] t)) 0 t e.

(** A numeric field of the twitter_stats document. *)
Definition tcounter (p : string) (s : tdb) : option Z :=
  match twitter_stats s with
  | Some d => lookup_path p (st_counters d)
  | None => None
  end.

(** The user name [add_tweet] passes to [_update_stats]. *)
Definition tweet_author (t : tweet) : option string :=
  if truthy (tw_username t) then tw_username t else tw_original_author t.

(** The states a Twitter store reaches from a fresh one whose GridFS files
    carry no [md5] field (as [gridfs.put] writes them), through [add_tweet],
    [add_user] and [remove_user], while the clocks move on.  Tweets come with
    plain user names and keywords. *)
Inductive treachable (md5 : string -> string) (guess : string -> option string)
  : tdb -> Prop :=
| tr_init (t : string) (e : media_env) :
    Forall (fun f => assoc "md5" (f_fields f) = None) (files e) ->
    treachable md5 guess (init_tdb t e)
| tr_tweet (s : tdb) (t : tweet) :
    plain_opt (tweet_author t) = true -> plain_opt (tw_keyword t) = true ->
    treachable md5 guess s -> treachable md5 guess (snd (add_tweet md5 guess t s))
| tr_user (s : tdb) (u : string) (d : option string) :
    treachable md5 guess s -> treachable md5 guess (snd (add_user u d s))
| tr_remove (s : tdb) (u : string) :
    treachable md5 guess s -> treachable md5 guess (snd (remove_user u s))
| tr_tick (s : tdb) (t t' : string) :
    treachable md5 guess s ->
    treachable md5 guess (set_media (set_tnow s t)
                            (mkMedia (disk (t_media s)) (files (t_media s))
                                     (g_next_oid (t_media s)) t')).

(** * Claims *)

(** C1: in every state reached from a fresh store through [add_article]
    calls, no two articles share a URL; an article whose URL is already
    stored is classified as a duplicate and inserts nothing; and a
    successful insert stores a key that was absent, exactly once. *)
Theorem add_article_at_most_one_item (s : db) :
  reachable s ->
  NoDup (article_keys s) /\
  (forall a u, a_url a = Some u -> In (Some u) (article_keys s) ->
     fst (add_article a s) = Ok (AddDuplicate u) /\
     articles (snd (add_article a s)) = articles s) /\
  (forall a u n i, fst (add_article a s) = Ok (AddSuccess u n i) ->
     ~ In (Some u) (article_keys s) /\
     article_keys (snd (add_article a s)) = (article_keys s ++ [Some u])%list).
Proof.
  intros Hr; destruct (reachable_key_inv s Hr) as (Hnd & Heq & Htr).
  split; [exact Hnd|split].
  - intros a u Hu Hin.
    destruct (add_article_cases a s)
      as [[r H] | [[u' [Hu' H]] | (u' & s' & Hu' & _ & Hns & _ & _)]].
    + exfalso; revert H; pose proof (add_article_spec a s) as Hs; rewrite Hu in Hs.
      rewrite Forall_forall in Htr; rewrite (Htr _ Hin) in Hs.
      assert (Hin' : in_seen u s = true) by (apply in_seen_iff; rewrite <- Heq; exact Hin).
      rewrite Hin' in Hs; rewrite Hs; discriminate.
    + rewrite Hu in Hu'; injection Hu' as <-; rewrite H; split; [reflexivity|].
      apply dup_state_frame.
    + rewrite Hu in Hu'; injection Hu' as <-; rewrite <- Heq in Hns; contradiction.
  - intros a u n i Hok.
    destruct (add_article_cases a s)
      as [[r H] | [[u' [_ H]] | (u' & s' & _ & _ & _ & Hna & H & Hk & _)]];
      rewrite H in Hok |- *; simpl in Hok; try discriminate.
    injection Hok as <- _ _; simpl; split; assumption.
Qed.

Lemma add_article_at_most_one_item_witness :
  reachable (snd (add_article (mkArticle (Some "A") (Some "X") None true) (init_db "t")))
  /\ fst (add_article (mkArticle (Some "A") None None false)
           (snd (add_article (mkArticle (Some "A") (Some "X") None true) (init_db "t"))))
     = Ok (AddDuplicate "A").
Proof.
  split.
  - apply reach_add, reach_init.
  - apply (add_article_at_most_one_item
             (snd (add_article (mkArticle (Some "A") (Some "X") None true) (init_db "t")))
             (reach_add _ _ (reach_init "t"))); vm_compute; auto.
Defined.

(** C7: in every state reached from a fresh store through [add_article]
    calls, seen_urls holds an entry for a URL exactly when the articles
    collection holds an article with that URL (articles are never removed,
    so this is "was inserted at some point"); a call that does not succeed
    leaves the URLs of seen_urls as they were, and a successful call adds
    exactly the entry of its URL. *)
Theorem seen_entry_iff_inserted (s : db) :
  reachable s ->
  (forall u, (exists e, In e (seen_urls s) /\ se_url e = u) <->
             (exists d, In d (articles s) /\ a_url (ad_article d) = Some u)) /\
  (forall a, (forall u n i, fst (add_article a s) <> Ok (AddSuccess u n i)) ->
     seen_keys (snd (add_article a s)) = seen_keys s) /\
  (forall a u n i, fst (add_article a s) = Ok (AddSuccess u n i) ->
     seen_keys (snd (add_article a s)) = (seen_keys s ++ [Some u])%list).
Proof.
  intros Hr; destruct (reachable_key_inv s Hr) as (_ & Heq & _).
  split; [|split].
  - intros u; split.
    + intros [e [He Hu]].
      assert (Hin : In (Some u) (article_keys s)).
      { rewrite Heq; unfold seen_keys; apply in_map_iff; exists e; subst; auto. }
      unfold article_keys in Hin; apply in_map_iff in Hin.
      destruct Hin as [d [Hd Hin]]; exists d; auto.
    + intros [d [Hd Hu]].
      assert (Hin : In (Some u) (seen_keys s)).
      { rewrite <- Heq; unfold article_keys; apply in_map_iff; exists d; auto. }
      unfold seen_keys in Hin; apply in_map_iff in Hin.
      destruct Hin as [e [He Hin]]; injection He as He; exists e; auto.
  - intros a Hnot.
    destruct (add_article_cases a s)
      as [[r H] | [[u [_ H]] | (u & s' & _ & _ & _ & _ & H & _)]];
      rewrite H in *; simpl in *.
    + reflexivity.
    + apply dup_state_keys.
    + exfalso; eapply Hnot; reflexivity.
  - intros a u n i Hok.
    destruct (add_article_cases a s)
      as [[r H] | [[u' [_ H]] | (u' & s' & _ & _ & _ & _ & H & _ & Hse & _)]];
      rewrite H in Hok |- *; simpl in Hok; try discriminate.
    injection Hok as <- _ _; simpl; unfold seen_keys; rewrite Hse, map_app; reflexivity.
Qed.

Lemma seen_entry_iff_inserted_witness :
  (exists e, In e (seen_urls (snd (add_article (mkArticle (Some "A") None None true)
                                              (init_db "t")))) /\ se_url e = "A").
Proof.
  apply (seen_entry_iff_inserted
           (snd (add_article (mkArticle (Some "A") None None true) (init_db "t")))
           (reach_add _ _ (reach_init "t"))).
  vm_compute; eexists; split; [left; reflexivity | reflexivity].
Defined.






(** C9: the total_articles figure of [get_database_stats] is the number of
    documents of the articles collection, whatever the stats document holds
    (or whether it exists at all). *)
Theorem get_database_stats_counts_articles (s : db) (d : option stats_doc) :
  exists v v', get_database_stats s = (Ok v, s) /\
    v_total_articles v = length (articles s) /\
    get_database_stats (set_stats s d) = (Ok v', set_stats s d) /\
    v_total_articles v' = length (articles s).
Proof. do 2 eexists; repeat split; reflexivity. Qed.

(** C10: the summary of [add_articles_batch] has [total] equal to the number
    of articles, [added + duplicates + errors = total], and one entry of
    [duplicate_urls] per duplicate result, in submission order. *)
Theorem add_articles_batch_summary_consistent (l : list article) (s : db) :
  exists sm s', add_articles_batch l s = (Ok sm, s') /\
    b_total sm = length l /\
    b_added sm + b_duplicates sm + b_errors sm = b_total sm /\
    length (b_duplicate_urls sm) = b_duplicates sm /\
    exists rs, submit_all l s = (Ok rs, s') /\ b_duplicate_urls sm = dup_urls rs.
Proof.
  destruct (batch_loop_fold l (mkSummary (length l) 0 0 0 []) s) as (rs & s' & H1 & H2).
  destruct (submit_all_ok l s) as (rs' & s'' & H1' & Hl).
  rewrite H1 in H1'; injection H1' as <- <-.
  unfold add_articles_batch; rewrite H2, fold_tally; simpl.
  do 2 eexists; split; [reflexivity|].
  repeat split; simpl.
  - rewrite count_status_total; exact Hl.
  - apply dup_urls_length.
  - exists rs; split; [exact H1 | reflexivity].
Qed.

(** Repeated submissions of an article whose URL is the only entry of
    seen_urls: all duplicates, one [seen_count] increment each. *)
Lemma submit_repeat_duplicates (a : article) (u : string) (m : nat) :
  a_url a = Some u -> truthy (Some u) = true ->
  forall s e, seen_urls s = [e] -> se_url e = u ->
  exists s' e', submit_all (repeat a m) s = (Ok (repeat (AddDuplicate u) m), s') /\
    seen_urls s' = [e'] /\ se_url e' = u /\
    se_seen_count e' = (se_seen_count e + Z.of_nat m)%Z.
Proof.
  intros Hu Ht; induction m as [|m IH]; intros s e Hs He.
  - exists s, e; repeat split; auto; lia.
  - pose proof (add_article_spec a s) as H; rewrite Hu, Ht in H.
    assert (Hin : in_seen u s = true)
      by (unfold in_seen; rewrite Hs; simpl; rewrite He, String.eqb_refl; reflexivity).
    rewrite Hin in H.
    destruct (dup_state_frame u (a_website_name a) s) as (_ & Hse & _).
    assert (Hse' : seen_urls (dup_state u (a_website_name a) s) = [touch_entry (now s) e]).
    { rewrite Hse, Hs; cbn [update_first]; rewrite He, String.eqb_refl; reflexivity. }
    destruct (IH _ _ Hse' He) as (s' & e' & H2 & Hs' & He' & Hc).
    exists s', e'; repeat split; auto.
    + simpl repeat; eapply submit_all_cons; eauto.
    + rewrite Hc; unfold touch_entry; simpl; lia.
Qed.

(** C2 (as stated): a counterexample.  An article with a non-empty URL whose
    dict cannot be encoded to BSON is rejected by [insert_one] on every
    submission: two submissions give two errors, no success. *)
Lemma submit_twice_unencodable_cx :
  fst (submit_all (repeat (mkArticle (Some "A") (Some "X") None false) 2) (init_db "t"))
  = Ok [AddError "cannot encode object"; AddError "cannot encode object"].
Proof. vm_compute; reflexivity. Qed.

(** Submitting an article whose dict cannot be encoded, for a URL not yet
    seen, fails with the same error every time and changes nothing. *)
Lemma submit_repeat_unencodable (a : article) (u : string) (m : nat) (s : db) :
  a_url a = Some u -> truthy (Some u) = true -> a_bson_ok a = false ->
  in_seen u s = false ->
  submit_all (repeat a m) s = (Ok (repeat (AddError "cannot encode object") m), s).
Proof.
  intros Hu Ht Hok Hs; induction m as [|m IH]; [reflexivity|].
  simpl repeat; apply (submit_all_cons _ _ s s s); [|exact IH].
  pose proof (add_article_spec a s) as H; rewrite Hu, Ht, Hs, Hok in H; exact H.
Qed.

(** C2 (amended): submitting an article with a non-empty URL [n >= 1] times
    from a fresh store gives, when its dict encodes to BSON, one ['success']
    followed by [n - 1] ['duplicate'] results, and seen_urls then holds one
    entry, for that URL, with [seen_count = n]; when its dict cannot be
    encoded, every submission gives the error 'cannot encode object' and
    the store stays as it was. *)
Theorem submit_n_times_one_success (t : string) (a : article) (u : string) (n : nat) :
  a_url a = Some u -> u <> "" -> 1 <= n ->
  (a_bson_ok a = true ->
   exists rs s' e, submit_all (repeat a n) (init_db t) = (Ok rs, s') /\
     map status rs = "success" :: repeat "duplicate" (n - 1) /\
     seen_urls s' = [e] /\ se_url e = u /\ se_seen_count e = Z.of_nat n) /\
  (a_bson_ok a = false ->
   submit_all (repeat a n) (init_db t) =
     (Ok (repeat (AddError "cannot encode object") n), init_db t)).
Proof.
  intros Hu Hne Hn.
  assert (Ht : truthy (Some u) = true)
    by (simpl; apply negb_true_iff, String.eqb_neq; exact Hne).
  split; intros Hok.
  2: { apply (submit_repeat_unencodable a u n (init_db t) Hu Ht Hok); reflexivity. }
  destruct n as [|m]; [lia|]; simpl (S m - 1); rewrite Nat.sub_0_r.
  pose proof (add_article_spec a (init_db t)) as H; rewrite Hu, Ht, Hok in H.
  simpl in H.
  destruct H as (s1 & H1 & _ & Hse & _).
  destruct (submit_repeat_duplicates a u m Hu Ht s1 _ Hse eq_refl)
    as (s' & e' & H2 & Hs' & He' & Hc).
  exists (AddSuccess u 1 0 :: repeat (AddDuplicate u) m), s', e'; repeat split; auto.
  - simpl repeat; eapply submit_all_cons; eauto.
  - simpl; f_equal; rewrite map_repeat; reflexivity.
  - rewrite Hc; cbn [se_seen_count]; lia.
Qed.

Lemma submit_n_times_one_success_witness :
  (exists rs s' e, submit_all (repeat (mkArticle (Some "A") (Some "X") None true) 3)
                              (init_db "t") = (Ok rs, s') /\
     map status rs = "success" :: repeat "duplicate" (3 - 1) /\
     seen_urls s' = [e] /\ se_url e = "A" /\ se_seen_count e = Z.of_nat 3) /\
  submit_all (repeat (mkArticle (Some "A") (Some "X") None false) 3) (init_db "t") =
    (Ok (repeat (AddError "cannot encode object") 3), init_db "t").
Proof.
  split.
  - apply (submit_n_times_one_success "t" (mkArticle (Some "A") (Some "X") None true) "A" 3);
      [reflexivity | discriminate | lia | reflexivity].
  - apply (submit_n_times_one_success "t" (mkArticle (Some "A") (Some "X") None false) "A" 3);
      [reflexivity | discriminate | lia | reflexivity].
Defined.








(** C4 (code defect): the duplicate path raises total_duplicates but not the
    per-source counter: [_track_duplicate] calls [_update_stats(duplicates=1)]
    without the [source] it received.  Submitting [{url: "A", website_name:
    "X"}] twice to a fresh store leaves sources.X.duplicates missing. *)
Theorem track_duplicate_skips_source_counter :
  let a := mkArticle (Some "A") (Some "X") None true in
  let s := snd (submit_all [a; a] (init_db "t")) in
  fst (submit_all [a; a] (init_db "t")) = Ok [AddSuccess "A" 1 0; AddDuplicate "A"] /\
  option_map (fun d => lookup_path "total_duplicates" (st_counters d)) (stats s)
    = Some (Some 1%Z) /\
  option_map (fun d => lookup_path "sources.X.duplicates" (st_counters d)) (stats s)
    = Some None.
Proof. vm_compute; repeat split; reflexivity. Qed.

(** C5 (as stated): a counterexample.  The reason [add_article] gives for an
    article without URL is ["missing_url"], not ["missing_key"]. *)
Lemma missing_key_reason_cx :
  fst (add_article (mkArticle None (Some "X") None true) (init_db "t"))
  <> Ok (AddError "missing_key").
Proof. vm_compute; discriminate. Qed.

(** C5 (amended): an article whose URL is absent or empty gets the result
    [{'status': 'error', 'reason': 'missing_url'}] and the database is left
    exactly as it was. *)
Theorem add_article_missing_url (a : article) (s : db) :
  truthy (a_url a) = false ->
  add_article a s = (Ok (AddError "missing_url"), s) /\
  status (AddError "missing_url") = "error".
Proof.
  intros Ht; split; [|reflexivity].
  unfold add_article; destruct (a_url a) as [u|]; [|reflexivity].
  rewrite Ht; reflexivity.
Qed.

Lemma add_article_missing_url_witness :
  add_article (mkArticle (Some "") (Some "X") None true) (init_db "t")
  = (Ok (AddError "missing_url"), init_db "t").
Proof.
  apply (add_article_missing_url (mkArticle (Some "") (Some "X") None true) (init_db "t")).
  reflexivity.
Defined.

(** Two local files with the same bytes ["abc"] under different names. *)
Definition media_two_copies : media_env :=
  mkMedia [("media/f1.jpg", "abc"); ("media/f2.jpg", "abc")] [] 0 "t".

(** C6 (code defect): uploading the same bytes twice under two file names
    stores two GridFS files and returns two different ids, whatever the
    digest and the content type.  The lookup [gridfs.find_one({"md5":
    file_hash})] searches a field that [gridfs.put] is never given, so it
    never finds the first upload; the same holds for
    [MediaUploader.upload_file_to_gridfs]. *)
Theorem upload_same_bytes_twice_stores_two (md5 : string -> string)
  (guess : string -> option string) :
  let (id1, e1) := upload_media_file md5 guess "media/f1.jpg" "1" "photo" media_two_copies in
  let (id2, e2) := upload_media_file md5 guess "media/f2.jpg" "1" "photo" e1 in
  id1 = Some 0 /\ id2 = Some 1 /\ length (files e2) = 2 /\
  stored_bytes e2 = 6 /\
  (let mi1 := mkInfo "media/f1.jpg" "f1.jpg" "f1.jpg" 3 false in
   let mi2 := mkInfo "media/f2.jpg" "f2.jpg" "f2.jpg" 3 false in
   let st0 := mkUStats 0 0 0 0 in
   let '(r1, st1, g1) := upload_file_to_gridfs md5 guess false mi1 st0 media_two_copies in
   let '(r2, st2, g2) := upload_file_to_gridfs md5 guess false mi2 st1 g1 in
   r1 = Some (GridfsId 0) /\ r2 = Some (GridfsId 1) /\ length (files g2) = 2 /\
   us_duplicates_detected st2 = 0).
Proof. repeat split; reflexivity. Qed.

(** * Further properties of the code *)

(** ** Counters of the stats document under [$inc] *)

Definition opt0 (o : option Z) : Z := match o with Some v => v | None => 0%Z end.

(** The effect of one [$inc] entry on the value read at path [p]. *)
Definition inc_opt (p : string) (o : option Z) (pv : string * Z) : option Z :=
  if String.eqb (fst pv) p then Some (opt0 o + snd pv)%Z else o.

Lemma lookup_inc_path (p q : string) (n : Z) (l : list (string * Z)) :
  lookup_path p (inc_path q n l) = inc_opt p (lookup_path p l) (q, n).
Proof.
  unfold inc_opt; cbn [fst snd].
  induction l as [|[k v] l IH]; simpl.
  - destruct (String.eqb q p); reflexivity.
  - destruct (String.eqb_spec k q) as [->|Hkq]; simpl.
    + destruct (String.eqb q p); reflexivity.
    + rewrite IH.
      destruct (String.eqb_spec k p) as [->|Hkp]; destruct (String.eqb_spec q p) as [->|Hqp];
        try congruence; reflexivity.
Qed.

Lemma lookup_apply_incs (p : string) (incs l : list (string * Z)) :
  lookup_path p (apply_incs incs l) = fold_left (inc_opt p) incs (lookup_path p l).
Proof.
  unfold apply_incs; revert l; induction incs as [|[q n] incs IH]; intros l; simpl;
    [reflexivity|].
  rewrite IH, lookup_inc_path; reflexivity.
Qed.

(** A stats update, upserting or not, as seen by [counter]. *)
Lemma counter_after (p : string) (s s' : db) (incs : list (string * Z)) (t : string) :
  stats s' = Some (mkStats (apply_incs incs (st_counters (match stats s with
                                                           | Some d => d
                                                           | None => mkStats [] (now s)
                                                           end))) t) ->
  counter p s' = fold_left (inc_opt p) incs (counter p s).
Proof.
  intros E; unfold counter; rewrite E; cbn [st_counters]; rewrite lookup_apply_incs.
  destruct (stats s); reflexivity.
Qed.

(** ** Shapes of the states the writing methods leave *)

(** The state after a successful [add_article]. *)
Definition success_state (a : article) (u : string) (s : db) : db :=
  let d := match stats s with Some d => d | None => mkStats [] (now s) end in
  mkDb (articles s ++ [inserted_doc a (next_oid s) (now s)])
       (seen_urls s ++ [mkSeen u (now s) (now s) (a_website_name a) 1])
       (Some (mkStats (apply_incs (update_stats_incs 1 0 (a_website_name a))
                                  (st_counters d)) (now s)))
       (scraper_runs s) (S (next_oid s)) (now s).

Lemma add_article_success_eq (a : article) (u : string) (s : db) :
  a_url a = Some u -> truthy (Some u) = true -> in_seen u s = false ->
  a_bson_ok a = true -> existsb (key_eqb u) (articles s) = false ->
  add_article a s = (Ok (AddSuccess u (S (length (articles s))) (next_oid s)),
                     success_state a u s).
Proof.
  destruct a as [[u'|] src sa ok]; cbn [a_url a_website_name a_bson_ok a_scraped_at];
    intros Hu Ht Hs Hok Hk; [injection Hu as <-|discriminate]; subst ok.
  unfold add_article; cbn [a_url a_website_name a_bson_ok a_scraped_at]; rewrite Ht.
  unfold catch, add_article_try.
  rewrite (bind_ok _ _ s _ s (seen_count_eq u' s)); cbv beta; rewrite Hs.
  assert (Hs' : existsb (fun e' => String.eqb (se_url e') u') (seen_urls s) = false)
    by exact Hs.
  assert (Hk' : existsb (fun d => opt_eqb (a_url (ad_article d)) u') (articles s) = false)
    by exact Hk.
  destruct sa; cbv [bind now_iso articles_insert_one ret _add_to_seen_urls catch
                    seen_insert_one articles_count]; cbn; rewrite Hk';
    cbn [se_url seen_urls bump_oid set_articles]; rewrite Hs';
    cbn; rewrite length_app, Nat.add_comm; reflexivity.
Qed.

Lemma dup_state_stats (u : string) (src : option string) (s : db) :
  stats (dup_state u src s) =
  Some (mkStats (apply_incs (update_stats_incs 0 1 None)
                            (st_counters (match stats s with
                                          | Some d => d
                                          | None => mkStats [] (now s) end))) (now s)).
Proof. reflexivity. Qed.

Lemma start_scraper_run_eq (src : option string) (s : db) :
  start_scraper_run src s =
  (Ok (next_oid s),
   mkDb (articles s) (seen_urls s)
        (Some (mkStats (apply_incs [("total_scraper_runs", 1%Z)]
                          (st_counters (match stats s with
                                        | Some d => d
                                        | None => mkStats [] (now s) end)))
                       (st_last_updated (match stats s with
                                         | Some d => d
                                         | None => mkStats [] (now s) end))))
        (scraper_runs s ++ [mkRun (next_oid s) (now s) "running" src 0 0 0 None])
        (S (next_oid s)) (now s)).
Proof. reflexivity. Qed.

(** ** seen_urls bookkeeping *)

Lemma repeat_sightings_app (l : list seen_entry) (e : seen_entry) :
  repeat_sightings (l ++ [e])%list = (repeat_sightings l + se_seen_count e - 1)%Z.
Proof.
  induction l as [|x l IH]; simpl; [lia|]. unfold repeat_sightings in *; simpl in *.
  rewrite IH; lia.
Qed.

Lemma repeat_sightings_touch (u t : string) (l : list seen_entry) :
  existsb (fun e => String.eqb (se_url e) u) l = true ->
  repeat_sightings (update_first (fun e => String.eqb (se_url e) u) (touch_entry t) l)
  = (repeat_sightings l + 1)%Z.
Proof.
  induction l as [|x l IH]; simpl; [discriminate|].
  destruct (String.eqb (se_url x) u); simpl.
  - intros _; unfold touch_entry; simpl; lia.
  - intros H; unfold repeat_sightings in *; simpl; rewrite (IH H); lia.
Qed.

Lemma Forall_update_first {T} (P : T -> Prop) (p : T -> bool) (f : T -> T) (l : list T) :
  (forall x, P x -> P (f x)) -> Forall P l -> Forall P (update_first p f l).
Proof.
  intros Hf; induction 1 as [|x l Hx Hl IH]; simpl; [constructor|].
  destruct (p x); constructor; auto.
Qed.

Lemma length_update_first {T} (p : T -> bool) (f : T -> T) (l : list T) :
  length (update_first p f l) = length l.
Proof. induction l as [|x l IH]; simpl; [|destruct (p x); simpl]; auto. Qed.


(** ** The store invariant

    In every reachable state the stats document agrees with the collections:
    total_articles is the number of articles, total_duplicates the number of
    repeat sightings recorded in seen_urls, total_scraper_runs the number of
    runs; every seen_urls entry has been seen at least once, and every run id
    is an ObjectId already handed out. *)
Definition store_inv (s : db) : Prop :=
  key_inv s /\
  counter "total_articles" s = Some (Z.of_nat (length (articles s))) /\
  counter "total_duplicates" s = Some (repeat_sightings (seen_urls s)) /\
  Forall (fun e => (1 <= se_seen_count e)%Z) (seen_urls s) /\
  counter "total_scraper_runs" s = Some (Z.of_nat (length (scraper_runs s))) /\
  Forall (fun r => r_id r < next_oid s) (scraper_runs s).

Lemma dup_state_store_inv (u : string) (src : option string) (s : db) :
  store_inv s -> in_seen u s = true -> store_inv (dup_state u src s).
Proof.
  intros (Hk & Ha & Hd & Hpos & Hr & Hid) Hs.
  destruct (dup_state_frame u src s) as (Hart & Hse & Hrun & Hoid & _).
  pose proof (dup_state_stats u src s) as Hst.
  destruct (dup_state_keys u src s) as [Hk1 Hk2].
  split; [unfold key_inv; rewrite Hk1, Hk2; exact Hk|].
  rewrite !(counter_after _ s _ _ _ Hst), Hart, Hse, Hrun, Hoid; cbn -[update_first].
  rewrite Ha, Hd, Hr.
  repeat split; auto.
  - f_equal; rewrite repeat_sightings_touch; [cbn [opt0]; lia | exact Hs].
  - apply Forall_update_first; [unfold touch_entry; simpl; intros; lia | exact Hpos].
Qed.

Lemma add_article_store_inv (a : article) (s : db) :
  store_inv s -> store_inv (snd (add_article a s)).
Proof.
  intros Hinv; pose proof Hinv as (Hk & Ha & Hd & Hpos & Hr & Hid).
  pose proof (add_article_spec a s) as H.
  destruct (a_url a) as [u|] eqn:Hu; [|rewrite H; exact Hinv].
  destruct (truthy (Some u)) eqn:Ht; [|rewrite H; exact Hinv].
  destruct (in_seen u s) eqn:Hs.
  { rewrite H; apply dup_state_store_inv; assumption. }
  destruct (negb (a_bson_ok a)) eqn:Hok; [rewrite H; exact Hinv|].
  destruct (existsb (key_eqb u) (articles s)) eqn:Hke.
  { apply in_articles_iff in Hke; rewrite (proj1 (proj2 Hk)) in Hke.
    apply in_seen_iff in Hke; congruence. }
  apply negb_false_iff in Hok.
  pose proof (add_article_key_inv a s Hk) as Hk'.
  rewrite (add_article_success_eq a u s Hu Ht Hs Hok Hke) in *; simpl snd in *.
  assert (Hst : stats (success_state a u s) =
    Some (mkStats (apply_incs (update_stats_incs 1 0 (a_website_name a))
                    (st_counters (match stats s with Some d => d
                                  | None => mkStats [] (now s) end))) (now s)))
    by reflexivity.
  split; [exact Hk'|].
  rewrite !(counter_after _ s _ _ _ Hst).
  unfold success_state; cbn [articles seen_urls scraper_runs next_oid].
  rewrite length_app, repeat_sightings_app.
  assert (Hpos' : Forall (fun e => (1 <= se_seen_count e)%Z)
                    (seen_urls s ++ [mkSeen u (now s) (now s) (a_website_name a) 1])%list)
    by (apply Forall_app; split; [exact Hpos | constructor; [simpl; lia | constructor]]).
  assert (Hid' : Forall (fun r => r_id r < S (next_oid s)) (scraper_runs s))
    by (eapply Forall_impl; [|exact Hid]; intros r Hlt; cbv beta in *; lia).
  cbn [length se_seen_count].
  unfold update_stats_incs.
  destruct (a_website_name a) as [x|]; [destruct (truthy (Some x))|]; cbn;
    rewrite ?Ha, ?Hd, ?Hr; cbn [opt0]; (repeat split; [f_equal; lia | f_equal; lia | | ]);
    assumption.
Qed.

Lemma reachable_full_store_inv (s : db) : reachable_full s -> store_inv s.
Proof.
  induction 1 as [t | s a _ IH | s src _ IH | s rid da dd de st _ IH | s rid st _ IH
                 | s t _ IH].
  - repeat split; repeat constructor.
  - apply add_article_store_inv; exact IH.
  - destruct IH as (Hk & Ha & Hd & Hpos & Hr & Hid).
    rewrite start_scraper_run_eq; simpl snd.
    assert (E : forall p, counter p (mkDb (articles s) (seen_urls s)
        (Some (mkStats (apply_incs [("total_scraper_runs", 1%Z)]
                          (st_counters (match stats s with
                                        | Some d => d
                                        | None => mkStats [] (now s) end)))
                       (st_last_updated (match stats s with
                                         | Some d => d
                                         | None => mkStats [] (now s) end))))
        (scraper_runs s ++ [mkRun (next_oid s) (now s) "running" src 0 0 0 None])
        (S (next_oid s)) (now s)) =
        fold_left (inc_opt p) [("total_scraper_runs", 1%Z)] (counter p s))
      by (intros p; eapply counter_after; reflexivity).
    split; [exact Hk|]; rewrite !E; cbn; rewrite Ha, Hd, Hr, length_app.
    repeat split; auto.
    + f_equal; simpl; lia.
    + apply Forall_app; split; [|constructor; [simpl; lia | constructor]].
      eapply Forall_impl; [|exact Hid]; intros r Hlt; cbv beta in *; simpl; lia.
  - destruct IH as (Hk & Ha & Hd & Hpos & Hr & Hid).
    unfold update_scraper_run; simpl snd.
    split; [exact Hk|]; split; [exact Ha|]; split; [exact Hd|]; split; [exact Hpos|].
    split.
    + unfold counter in *; simpl; rewrite length_update_first; exact Hr.
    + apply Forall_update_first; [|exact Hid]; intros r Hlt; exact Hlt.
  - destruct IH as (Hk & Ha & Hd & Hpos & Hr & Hid).
    unfold end_scraper_run; simpl snd.
    split; [exact Hk|]; split; [exact Ha|]; split; [exact Hd|]; split; [exact Hpos|].
    split.
    + unfold counter in *; simpl; rewrite length_update_first; exact Hr.
    + apply Forall_update_first; [|exact Hid]; intros r Hlt; exact Hlt.
  - exact IH.
Qed.

(** ** Articles that a further submission cannot add

    An article is settled in a state when [add_article] can no longer insert
    it: its URL is falsy, its dict cannot be encoded, or its URL is already
    stored. *)
Definition settled (a : article) (s : db) : Prop :=
  truthy (a_url a) = false \/ a_bson_ok a = false \/
  exists u, a_url a = Some u /\ In (Some u) (article_keys s).

Lemma add_article_keys_grow (a : article) (s : db) (k : option string) :
  In k (article_keys s) -> In k (article_keys (snd (add_article a s))).
Proof.
  destruct (add_article_cases a s)
    as [[r H] | [[u [_ H]] | (u & s' & _ & _ & _ & _ & H & Hk & _)]];
    rewrite H; simpl; intros Hin.
  - exact Hin.
  - rewrite (proj1 (dup_state_keys _ _ _)); exact Hin.
  - rewrite Hk; apply in_or_app; left; exact Hin.
Qed.

Lemma settled_mono (a b : article) (s : db) :
  settled b s -> settled b (snd (add_article a s)).
Proof.
  intros [H | [H | (u & Hu & Hin)]]; [left | right; left | right; right]; auto.
  exists u; split; [exact Hu | apply add_article_keys_grow; exact Hin].
Qed.

Lemma add_article_settles (a : article) (s : db) :
  key_inv s -> settled a (snd (add_article a s)).
Proof.
  intros Hk; pose proof (add_article_spec a s) as H; unfold settled.
  destruct (a_url a) as [u|] eqn:Hu; [|left; reflexivity].
  destruct (truthy (Some u)) eqn:Ht; [|left; reflexivity].
  right; destruct (in_seen u s) eqn:Hs.
  { right; exists u; split; [reflexivity|]; rewrite H; simpl.
    rewrite (proj1 (dup_state_keys _ _ _)), (proj1 (proj2 Hk)); apply in_seen_iff; exact Hs. }
  destruct (a_bson_ok a) eqn:Hok; simpl in H; [|left; reflexivity].
  right; exists u; split; [reflexivity|].
  destruct (existsb (key_eqb u) (articles s)) eqn:Hke.
  - rewrite H; simpl; rewrite (proj1 (dup_state_keys _ _ _)); apply in_articles_iff; exact Hke.
  - destruct H as (s' & -> & Ha & _); simpl.
    unfold article_keys; rewrite Ha, map_app; apply in_or_app; right.
    cbn [map In]; left; rewrite inserted_doc_key; exact Hu.
Qed.

Lemma settled_not_success (a : article) (s : db) :
  key_inv s -> settled a s ->
  exists r, fst (add_article a s) = Ok r /\ status r <> "success" /\
    articles (snd (add_article a s)) = articles s.
Proof.
  intros Hk Hset; pose proof (add_article_spec a s) as H.
  destruct (a_url a) as [u|] eqn:Hu;
    [|rewrite H; eexists; split; [reflexivity | split; [discriminate | reflexivity]]].
  destruct (truthy (Some u)) eqn:Ht;
    [|rewrite H; eexists; split; [reflexivity | split; [discriminate | reflexivity]]].
  destruct (in_seen u s) eqn:Hs.
  { rewrite H; eexists; split; [reflexivity | split; [discriminate | apply dup_state_frame]]. }
  destruct (a_bson_ok a) eqn:Hok; simpl in H.
  - exfalso; destruct Hset as [Hf | [Hf | (u' & Hu' & Hin)]];
      [rewrite Hu in Hf; congruence | congruence |].
    rewrite Hu in Hu'; injection Hu' as <-.
    rewrite (proj1 (proj2 Hk)) in Hin; apply in_seen_iff in Hin; congruence.
  - rewrite H; eexists; split; [reflexivity | split; [discriminate | reflexivity]].
Qed.

Lemma submit_all_step (a : article) (l : list article) (s : db) (rs : list add_result)
  (s' : db) :
  submit_all (a :: l) s = (Ok rs, s') ->
  exists r rs', rs = r :: rs' /\ add_article a s = (Ok r, snd (add_article a s)) /\
    submit_all l (snd (add_article a s)) = (Ok rs', s').
Proof.
  intros H; destruct (add_article_never_raises a s) as (r & s1 & E1).
  destruct (submit_all_ok l s1) as (rs' & s2 & E2 & _).
  rewrite (submit_all_cons a l s s1 s2 r rs' E1 E2) in H; injection H as <- <-.
  exists r, rs'; rewrite E1; auto.
Qed.

(** A sequential run settles every article it submits, keeps the store
    invariant and never unsettles an article. *)
Lemma submit_all_settles (l : list article) (s : db) (rs : list add_result) (s' : db) :
  store_inv s -> submit_all l s = (Ok rs, s') ->
  store_inv s' /\ (forall a, In a l -> settled a s') /\
  (forall b, settled b s -> settled b s').
Proof.
  revert s rs; induction l as [|a l IH]; intros s rs Hinv H.
  - injection H as <- <-; split; [exact Hinv | split; [intros a [] | auto]].
  - destruct (submit_all_step a l s rs s' H) as (r & rs' & -> & E1 & E2).
    pose proof (add_article_store_inv a s Hinv) as Hi1.
    destruct (IH _ _ Hi1 E2) as (Hi2 & Hall & Hmono).
    split; [exact Hi2 | split].
    + intros b [<- | Hin]; [|apply Hall; exact Hin].
      apply Hmono, add_article_settles, Hinv.
    + intros b Hb; apply Hmono, settled_mono, Hb.
Qed.

(** A run over settled articles adds nothing. *)
Lemma submit_all_settled (l : list article) (s : db) (rs : list add_result) (s' : db) :
  store_inv s -> (forall a, In a l -> settled a s) -> submit_all l s = (Ok rs, s') ->
  count_status "success" rs = 0 /\ articles s' = articles s /\ store_inv s' /\
  (forall b, settled b s -> settled b s').
Proof.
  revert s rs; induction l as [|a l IH]; intros s rs Hinv Hset H.
  - injection H as <- <-; split; [reflexivity | split; [reflexivity | split; [exact Hinv | auto]]].
  - destruct (submit_all_step a l s rs s' H) as (r & rs' & -> & E1 & E2).
    destruct (settled_not_success a s (proj1 Hinv) (Hset a (or_introl eq_refl)))
      as (r' & Hr & Hst & Hart).
    rewrite E1 in Hr; injection Hr as <-.
    pose proof (add_article_store_inv a s Hinv) as Hi1.
    destruct (IH _ _ Hi1 (fun b Hb => settled_mono a b s (Hset b (or_intror Hb))) E2)
      as (Hc & Ha2 & Hi2 & Hmono).
    split; [|split; [|split; [exact Hi2|]]].
    + unfold count_status in *; simpl.
      destruct (String.eqb_spec (status r) "success"); [contradiction | exact Hc].
    + rewrite Ha2; exact Hart.
    + intros b Hb; apply Hmono, settled_mono, Hb.
Qed.

(** Each successful result appends one article, the others none. *)
Lemma submit_all_growth (l : list article) (s : db) (rs : list add_result) (s' : db) :
  submit_all l s = (Ok rs, s') ->
  exists new, articles s' = (articles s ++ new)%list /\
    length new = count_status "success" rs.
Proof.
  revert s rs; induction l as [|a l IH]; intros s rs H.
  - injection H as <- <-; exists []; rewrite app_nil_r; split; reflexivity.
  - destruct (submit_all_step a l s rs s' H) as (r & rs' & -> & E1 & E2).
    destruct (add_article_cases a s)
      as [[r0 H0] | [[u [_ H0]] | (u & s1 & _ & _ & _ & _ & H0 & _)]];
      rewrite H0 in E1, E2; injection E1 as <-; simpl snd in *;
      destruct (IH _ _ E2) as (new & Hn & Hl).
    + exists new; split; [exact Hn|]; unfold count_status in *; simpl; exact Hl.
    + rewrite (proj1 (dup_state_frame _ _ _)) in Hn.
      exists new; split; [exact Hn|]; unfold count_status in *; simpl; exact Hl.
    + pose proof (add_article_spec a s) as Hsp.
      destruct (a_url a) as [u'|]; [|rewrite Hsp in H0; discriminate].
      destruct (truthy (Some u')); [|rewrite Hsp in H0; discriminate].
      destruct (in_seen u' s); [rewrite Hsp in H0; discriminate|].
      destruct (negb (a_bson_ok a)); [rewrite Hsp in H0; discriminate|].
      destruct (existsb (key_eqb u') (articles s)); [rewrite Hsp in H0; discriminate|].
      destruct Hsp as (s'' & Hs'' & Ha'' & _).
      rewrite Hs'' in H0; injection H0 as _ <-.
      rewrite Ha'', <- app_assoc in Hn.
      eexists; split; [exact Hn|]; unfold count_status in *; simpl; rewrite Hl; reflexivity.
Qed.

(** ** [merge_old_json_files] as a sequence of batches *)

(** The articles [add_article] receives from the items of a file: those
    before the first item that is not a dict. *)
Fixpoint dict_prefix (l : list json_item) : list article :=
  match l with
  | [] => []
  | JOtherItem :: _ => []
  | JDictItem a :: l' => a :: dict_prefix l'
  end.

(** Whether every item of a file is a dict. *)
Fixpoint items_ok (l : list json_item) : bool :=
  match l with
  | [] => true
  | JOtherItem :: _ => false
  | JDictItem _ :: l' => items_ok l'
  end.

Lemma batch_items_eq (l : list json_item) (acc : batch_summary) (s : db) :
  exists rs s', submit_all (dict_prefix l) s = (Ok rs, s') /\
    batch_items l acc s = (if items_ok l then Some (fold_left tally rs acc) else None, s').
Proof.
  revert acc s; induction l as [|[a|] l IH]; intros acc s.
  - exists [], s; split; reflexivity.
  - destruct (add_article_never_raises a s) as (r & s1 & E1).
    destruct (IH (tally acc r) s1) as (rs & s2 & E2 & E3).
    exists (r :: rs), s2; split; [eapply submit_all_cons; eauto|].
    simpl; rewrite E1; exact E3.
  - exists [], s; split; reflexivity.
Qed.

(** The articles a merge submits, file after file, and the number of files
    it reads to the end. *)
Definition merge_inputs (fs : list (string * json_file)) : list article :=
  flat_map (fun fv => match file_items (snd fv) with
                      | Some l => dict_prefix l
                      | None => [] end) fs.

Definition ok_files (fs : list (string * json_file)) : nat :=
  length (filter (fun fv => match file_items (snd fv) with
                            | Some l => items_ok l
                            | None => false end) fs).

Lemma merge_files_settles (fs : list (string * json_file)) (ms : merge_stats) (s : db)
  (ms' : merge_stats) (s' : db) :
  store_inv s -> merge_files fs ms s = (ms', s') ->
  store_inv s' /\ (forall a, In a (merge_inputs fs) -> settled a s') /\
  (forall b, settled b s -> settled b s') /\
  m_files_processed ms' = m_files_processed ms + ok_files fs.
Proof.
  revert ms s; induction fs as [|[f v] fs IH]; intros ms s Hinv H.
  - injection H as <- <-; split; [exact Hinv|]; split; [intros a []|]; split; [auto|].
    unfold ok_files; simpl; lia.
  - unfold merge_inputs, ok_files in *; simpl in H |- *.
    destruct (file_items v) as [l|].
    + destruct (batch_items_eq l (mkSummary (length l) 0 0 0 []) s) as (rs & s1 & E1 & E2).
      rewrite E2 in H.
      destruct (submit_all_settles _ _ _ _ Hinv E1) as (Hi1 & Hall1 & Hmono1).
      destruct (items_ok l).
      * destruct (IH _ _ Hi1 H) as (Hi2 & Hall2 & Hmono2 & Hf).
        split; [exact Hi2|]; split; [|split; [auto|]].
        -- intros a Hin; apply in_app_or in Hin as [Hin|Hin]; auto.
        -- simpl in Hf; simpl; lia.
      * destruct (IH _ _ Hi1 H) as (Hi2 & Hall2 & Hmono2 & Hf).
        split; [exact Hi2|]; split; [|split; [auto|exact Hf]].
        intros a Hin; apply in_app_or in Hin as [Hin|Hin]; auto.
    + destruct (IH _ _ Hinv H) as (Hi2 & Hall2 & Hmono2 & Hf).
      split; [exact Hi2|]; split; [exact Hall2|]; split; [exact Hmono2|exact Hf].
Qed.

Lemma merge_files_settled (fs : list (string * json_file)) (ms : merge_stats) (s : db)
  (ms' : merge_stats) (s' : db) :
  store_inv s -> (forall a, In a (merge_inputs fs) -> settled a s) ->
  merge_files fs ms s = (ms', s') ->
  m_articles_added ms' = m_articles_added ms /\ articles s' = articles s /\
  m_files_processed ms' = m_files_processed ms + ok_files fs.
Proof.
  revert ms s; induction fs as [|[f v] fs IH]; intros ms s Hinv Hset H.
  - injection H as <- <-; repeat split; auto.
  - unfold merge_inputs, ok_files in *; simpl in H, Hset |- *.
    destruct (file_items v) as [l|].
    + destruct (batch_items_eq l (mkSummary (length l) 0 0 0 []) s) as (rs & s1 & E1 & E2).
      rewrite E2 in H.
      destruct (submit_all_settled _ _ _ _ Hinv (fun a Ha => Hset a (in_or_app _ _ _ (or_introl Ha))) E1)
        as (Hc & Ha1 & Hi1 & Hmono1).
      assert (Hset' : forall a, In a (flat_map (fun fv => match file_items (snd fv) with
                                         | Some l => dict_prefix l
                                         | None => [] end) fs) -> settled a s1)
        by (intros a Ha; apply Hmono1, Hset, in_or_app; right; exact Ha).
      destruct (items_ok l).
      * destruct (IH _ _ Hi1 Hset' H) as (Hadd & Ha2 & Hf).
        rewrite fold_tally in Hadd; simpl in Hadd, Hf.
        repeat split; [lia | congruence | simpl; lia].
      * destruct (IH _ _ Hi1 Hset' H) as (Hadd & Ha2 & Hf).
        repeat split; [exact Hadd | congruence | exact Hf].
    + destruct (IH _ _ Hinv Hset H) as (Hadd & Ha2 & Hf); repeat split; auto.
Qed.

(** The growth of the articles collection during a merge: the articles
    counted in articles_added, and those of files read only in part. *)
Lemma merge_files_growth (fs : list (string * json_file)) (ms : merge_stats) (s : db)
  (ms' : merge_stats) (s' : db) :
  merge_files fs ms s = (ms', s') ->
  exists new, articles s' = (articles s ++ new)%list /\
    m_articles_added ms + length new >= m_articles_added ms' /\
    ((forall fv, In fv fs -> match file_items (snd fv) with
                            | Some l => items_ok l = true
                            | None => True end) ->
     m_articles_added ms + length new = m_articles_added ms').
Proof.
  revert ms s; induction fs as [|[f v] fs IH]; intros ms s H.
  - injection H as <- <-; exists []; rewrite app_nil_r; repeat split; auto; lia.
  - simpl in H; destruct (file_items v) as [l|] eqn:Hv.
    + destruct (batch_items_eq l (mkSummary (length l) 0 0 0 []) s) as (rs & s1 & E1 & E2).
      rewrite E2 in H.
      destruct (submit_all_growth _ _ _ _ E1) as (n1 & Hn1 & Hl1).
      destruct (items_ok l) eqn:Hok.
      * destruct (IH _ _ H) as (n2 & Hn2 & Hge & Heq).
        rewrite fold_tally in Hge, Heq; simpl in Hge, Heq.
        exists (n1 ++ n2)%list; split; [rewrite Hn2, Hn1, app_assoc; reflexivity|].
        rewrite length_app; split; [lia|].
        intros Hall; rewrite <- Heq; [lia|]; intros fv Hin; apply Hall; right; exact Hin.
      * destruct (IH _ _ H) as (n2 & Hn2 & Hge & Heq).
        exists (n1 ++ n2)%list; split; [rewrite Hn2, Hn1, app_assoc; reflexivity|].
        rewrite length_app; split; [lia|].
        intros Hall; specialize (Hall (f, v) (or_introl eq_refl)); simpl in Hall.
        rewrite Hv, Hok in Hall; discriminate.
    + destruct (IH _ _ H) as (n2 & Hn2 & Hge & Heq).
      exists n2; repeat split; auto.
      intros Hall; apply Heq; intros fv Hin; apply Hall; right; exact Hin.
Qed.

(** ** Reading back what [add_article] did *)

Lemma add_article_success_inv (a : article) (s : db) (u : string) (n i : nat) :
  fst (add_article a s) = Ok (AddSuccess u n i) ->
  a_url a = Some u /\ truthy (Some u) = true /\ in_seen u s = false /\
  a_bson_ok a = true /\ existsb (key_eqb u) (articles s) = false /\
  n = S (length (articles s)) /\ i = next_oid s.
Proof.
  pose proof (add_article_spec a s) as Hsp; intros H.
  destruct (a_url a) as [u'|]; [|rewrite Hsp in H; discriminate].
  destruct (truthy (Some u')) eqn:Ht; [|rewrite Hsp in H; discriminate].
  destruct (in_seen u' s) eqn:Hs; [rewrite Hsp in H; discriminate|].
  destruct (a_bson_ok a) eqn:Hok; simpl in Hsp; [|rewrite Hsp in H; discriminate].
  destruct (existsb (key_eqb u') (articles s)) eqn:Hk; [rewrite Hsp in H; discriminate|].
  destruct Hsp as (s' & Hs' & _); rewrite Hs' in H; injection H as <- <- <-.
  repeat split; auto.
Qed.


Lemma find_none_existsb {T} (p : T -> bool) (l : list T) :
  existsb p l = false -> find p l = None.
Proof.
  induction l as [|x l IH]; simpl; [reflexivity|].
  destruct (p x); [discriminate | exact IH].
Qed.

Lemma find_some_existsb {T} (p : T -> bool) (l : list T) :
  find p l <> None <-> existsb p l = true.
Proof.
  induction l as [|x l IH]; simpl; [split; [congruence | discriminate]|].
  destruct (p x); [split; [reflexivity | discriminate] | exact IH].
Qed.

Lemma find_app {T} (p : T -> bool) (l1 l2 : list T) :
  find p (l1 ++ l2)%list = match find p l1 with Some x => Some x | None => find p l2 end.
Proof.
  induction l1 as [|x l1 IH]; simpl; [reflexivity|]; destruct (p x); [reflexivity | exact IH].
Qed.

Lemma is_duplicate_eq (u : string) (s : db) : is_duplicate u s = (Ok (in_seen u s), s).
Proof.
  unfold is_duplicate; rewrite (bind_ok _ _ s _ s (seen_count_eq u s)).
  destruct (in_seen u s); reflexivity.
Qed.

(** ** Scraper runs *)

Lemma find_run_fresh (n : nat) (l : list run_doc) (x : run_doc) :
  Forall (fun r => r_id r < n) l -> r_id x = n ->
  find (fun r => Nat.eqb (r_id r) n) (l ++ [x])%list = Some x.
Proof.
  intros Hl Hx; rewrite find_app, find_none_existsb; simpl; [rewrite Hx, Nat.eqb_refl; reflexivity|].
  induction Hl as [|r l Hr _ IH]; simpl; [reflexivity|].
  destruct (Nat.eqb_spec (r_id r) n); [lia | exact IH].
Qed.


(** * Further properties: [MongoDBManager] *)



(** X2: after [add_article] reports success for a URL, [get_article_by_id]
    on that URL returns the article as it was inserted (with scraped_at set
    to the current time when the dict had none) and [is_duplicate] returns
    True for it. *)
Theorem get_article_by_id_after_add (a : article) (s : db) (u : string) (n i : nat) :
  fst (add_article a s) = Ok (AddSuccess u n i) ->
  get_article_by_id u (snd (add_article a s)) =
    (Ok (Some (ad_article (inserted_doc a i (now s)))), snd (add_article a s)) /\
  is_duplicate u (snd (add_article a s)) = (Ok true, snd (add_article a s)).
Proof.
  intros H; destruct (add_article_success_inv a s u n i H)
    as (Hu & Ht & Hs & Hok & Hk & _ & ->).
  rewrite (add_article_success_eq a u s Hu Ht Hs Hok Hk); simpl snd.
  split.
  - unfold get_article_by_id, success_state; cbn [articles].
    assert (E : key_eqb u (inserted_doc a (next_oid s) (now s)) = true)
      by (unfold key_eqb; rewrite inserted_doc_key, Hu; apply String.eqb_refl).
    rewrite find_app, (find_none_existsb _ _ Hk); cbn [find]; rewrite E; reflexivity.
  - rewrite is_duplicate_eq; f_equal; f_equal.
    unfold in_seen, success_state; cbn [seen_urls]; rewrite existsb_app; simpl.
    rewrite String.eqb_refl, orb_true_r; reflexivity.
Qed.

Lemma get_article_by_id_after_add_witness :
  is_duplicate "A" (snd (add_article (mkArticle (Some "A") None None true) (init_db "t")))
  = (Ok true, snd (add_article (mkArticle (Some "A") None None true) (init_db "t"))).
Proof.
  apply (get_article_by_id_after_add (mkArticle (Some "A") None None true) (init_db "t")
           "A" 1 0).
  reflexivity.
Defined.

(** X3: in every reachable state, [is_duplicate(url)] returns True exactly
    when [get_article_by_id(url)] finds an article; both only read. *)
Theorem is_duplicate_iff_article_stored (s : db) (u : string) :
  reachable_full s ->
  exists b o, is_duplicate u s = (Ok b, s) /\ get_article_by_id u s = (Ok o, s) /\
    (b = true <-> o <> None).
Proof.
  intros Hr; destruct (reachable_full_store_inv s Hr) as (Hk & _).
  do 2 eexists; split; [apply is_duplicate_eq|]; split; [reflexivity|].
  rewrite in_seen_iff, <- (proj1 (proj2 Hk)), <- in_articles_iff, <- find_some_existsb.
  destruct (find (key_eqb u) (articles s)); simpl; split; congruence.
Qed.

Lemma is_duplicate_iff_article_stored_witness :
  exists o,
    is_duplicate "A" (snd (add_article (mkArticle (Some "A") None None true) (init_db "t")))
    = (Ok true, snd (add_article (mkArticle (Some "A") None None true) (init_db "t"))) /\
    get_article_by_id "A" (snd (add_article (mkArticle (Some "A") None None true) (init_db "t")))
    = (Ok o, snd (add_article (mkArticle (Some "A") None None true) (init_db "t"))) /\
    o <> None.
Proof.
  destruct (is_duplicate_iff_article_stored
              (snd (add_article (mkArticle (Some "A") None None true) (init_db "t"))) "A"
              (rf_add _ (mkArticle (Some "A") None None true) (rf_init "t")))
    as (b & o & H1 & H2 & H3).
  assert (Hb : b = true).
  { rewrite is_duplicate_eq in H1; injection H1 as Hb; rewrite <- Hb; vm_compute; reflexivity. }
  subst b; exists o; split; [exact H1|]; split; [exact H2|].
  apply H3; reflexivity.
Defined.



(** X5: in every reachable state, running [add_articles_batch] a second time
    on the same list adds nothing: the second summary has [added = 0], every
    article counts as a duplicate or an error, and the articles collection is
    unchanged by the second run. *)
Theorem add_articles_batch_resubmit_adds_nothing (l : list article) (s s1 s2 : db)
  (sm1 sm2 : batch_summary) :
  reachable_full s -> add_articles_batch l s = (Ok sm1, s1) ->
  add_articles_batch l s1 = (Ok sm2, s2) ->
  b_added sm2 = 0 /\ b_duplicates sm2 + b_errors sm2 = length l /\
  articles s2 = articles s1.
Proof.
  intros Hr H1 H2; pose proof (reachable_full_store_inv s Hr) as Hinv.
  destruct (batch_loop_fold l (mkSummary (length l) 0 0 0 []) s) as (rs1 & s1' & E1 & F1).
  unfold add_articles_batch in H1; rewrite F1 in H1; injection H1 as _ <-.
  destruct (submit_all_settles _ _ _ _ Hinv E1) as (Hi1 & Hall & _).
  destruct (batch_loop_fold l (mkSummary (length l) 0 0 0 []) s1') as (rs2 & s2' & E2 & F2).
  unfold add_articles_batch in H2; rewrite F2 in H2; injection H2 as <- <-.
  destruct (submit_all_settled _ _ _ _ Hi1 Hall E2) as (Hc & Ha & _).
  destruct (submit_all_ok l s1') as (rs2' & s2'' & E2' & Hl).
  rewrite E2 in E2'; injection E2' as <- <-.
  rewrite fold_tally; cbn [b_added b_duplicates b_errors].
  pose proof (count_status_total rs2) as Ht.
  repeat split; [lia | lia | exact Ha].
Qed.

Lemma add_articles_batch_resubmit_adds_nothing_witness :
  b_added (mkSummary 2 0 1 1 ["A"]) = 0 /\
  b_duplicates (mkSummary 2 0 1 1 ["A"]) + b_errors (mkSummary 2 0 1 1 ["A"])
    = length [mkArticle (Some "A") None None true; mkArticle None None None true] /\
  articles (snd (add_articles_batch [mkArticle (Some "A") None None true;
                                     mkArticle None None None true]
                  (snd (add_articles_batch [mkArticle (Some "A") None None true;
                                            mkArticle None None None true]
                          (init_db "t")))))
  = articles (snd (add_articles_batch [mkArticle (Some "A") None None true;
                                       mkArticle None None None true] (init_db "t"))).
Proof.
  apply (add_articles_batch_resubmit_adds_nothing
           [mkArticle (Some "A") None None true; mkArticle None None None true]
           (init_db "t")
           (snd (add_articles_batch [mkArticle (Some "A") None None true;
                                     mkArticle None None None true] (init_db "t")))
           (snd (add_articles_batch [mkArticle (Some "A") None None true;
                                     mkArticle None None None true]
                   (snd (add_articles_batch [mkArticle (Some "A") None None true;
                                             mkArticle None None None true]
                           (init_db "t")))))
           (mkSummary 2 1 0 1 []) (mkSummary 2 0 1 1 ["A"]) (rf_init "t"));
    vm_compute; reflexivity.
Defined.

(** X6: in every reachable state, running [merge_old_json_files] a second
    time on the same directory adds no article: articles_added is 0, the
    articles collection is unchanged, and files_processed is the same as the
    first time (it counts the matching files read to the end). *)
Theorem merge_old_json_files_twice_adds_nothing (dir : option (list (string * json_file)))
  (s s1 s2 : db) (ms1 ms2 : merge_stats) :
  reachable_full s -> merge_old_json_files dir s = (ms1, s1) ->
  merge_old_json_files dir s1 = (ms2, s2) ->
  m_articles_added ms2 = 0 /\ articles s2 = articles s1 /\
  m_files_processed ms2 = m_files_processed ms1.
Proof.
  intros Hr H1 H2; pose proof (reachable_full_store_inv s Hr) as Hinv.
  unfold merge_old_json_files in H1, H2.
  destruct (merge_files_settles _ _ _ _ _ Hinv H1) as (Hi1 & Hall & _ & Hf1).
  destruct (merge_files_settled _ _ _ _ _ Hi1 Hall H2) as (Hadd & Ha & Hf2).
  simpl in Hadd, Hf1, Hf2; repeat split; [exact Hadd | exact Ha | lia].
Qed.

Lemma merge_old_json_files_twice_adds_nothing_witness :
  m_articles_added
    (fst (merge_old_json_files
            (Some [("scraped_articles_1.json",
                    JList [JDictItem (mkArticle (Some "A") None None true)])])
            (snd (merge_old_json_files
                    (Some [("scraped_articles_1.json",
                            JList [JDictItem (mkArticle (Some "A") None None true)])])
                    (init_db "t"))))) = 0.
Proof.
  destruct (merge_old_json_files_twice_adds_nothing
              (Some [("scraped_articles_1.json",
                      JList [JDictItem (mkArticle (Some "A") None None true)])])
              (init_db "t")
              (snd (merge_old_json_files
                      (Some [("scraped_articles_1.json",
                              JList [JDictItem (mkArticle (Some "A") None None true)])])
                      (init_db "t")))
              (snd (merge_old_json_files
                      (Some [("scraped_articles_1.json",
                              JList [JDictItem (mkArticle (Some "A") None None true)])])
                      (snd (merge_old_json_files
                              (Some [("scraped_articles_1.json",
                                      JList [JDictItem (mkArticle (Some "A") None None true)])])
                              (init_db "t")))))
              (mkMergeStats 1 1 0) (mkMergeStats 1 0 1) (rf_init "t"))
    as [H _]; [vm_compute; reflexivity | vm_compute; reflexivity | exact H].
Defined.

(** X8: in every reachable state, [start_scraper_run(source)] returns an id
    no run had before, and the run with that id is then the one it inserted:
    status 'running', started now, the given source, all counters at 0 and no
    ended_at; articles and seen_urls are left alone. *)
Theorem start_scraper_run_registers_run (s : db) (src : option string) :
  reachable_full s ->
  exists i s', start_scraper_run src s = (Ok i, s') /\
    find_run i s = None /\
    find_run i s' = Some (mkRun i (now s) "running" src 0 0 0 None) /\
    length (scraper_runs s') = S (length (scraper_runs s)) /\
    articles s' = articles s /\ seen_urls s' = seen_urls s.
Proof.
  intros Hr; destruct (reachable_full_store_inv s Hr) as (_ & _ & _ & _ & _ & Hid).
  rewrite start_scraper_run_eq; do 2 eexists; split; [reflexivity|].
  split; [|split; [|split]].
  - unfold find_run; apply find_none_existsb.
    clear Hr; induction Hid as [|r l Hr _ IH]; simpl; [reflexivity|].
    destruct (Nat.eqb_spec (r_id r) (next_oid s)); [lia | exact IH].
  - unfold find_run; cbn [scraper_runs]; apply find_run_fresh; [exact Hid | reflexivity].
  - cbn [scraper_runs]; rewrite length_app; simpl; lia.
  - split; reflexivity.
Qed.

Lemma start_scraper_run_registers_run_witness :
  scraper_runs (snd (start_scraper_run (Some "X") (init_db "t"))) <> [] /\
  exists i s', start_scraper_run None (snd (start_scraper_run (Some "X") (init_db "t"))) = (Ok i, s') /\
    find_run i (snd (start_scraper_run (Some "X") (init_db "t"))) = None /\
    find_run i s' = Some (mkRun i (now (snd (start_scraper_run (Some "X") (init_db "t")))) "running" None 0 0 0 None) /\
    length (scraper_runs s') = S (length (scraper_runs (snd (start_scraper_run (Some "X") (init_db "t"))))) /\
    articles s' = articles (snd (start_scraper_run (Some "X") (init_db "t"))) /\ seen_urls s' = seen_urls (snd (start_scraper_run (Some "X") (init_db "t"))).
Proof.
  split; [vm_compute; discriminate|].
  exact (start_scraper_run_registers_run (snd (start_scraper_run (Some "X") (init_db "t"))) None
           (rf_start _ (Some "X") (rf_init "t"))).
Defined.

(** * Further properties: [TwitterMongoManager] *)

(** ** GridFS uploads of [store_media_for_tweet] *)

(** No GridFS file carries an [md5] field. *)
Definition no_md5 (e : media_env) : Prop :=
  Forall (fun f => assoc "md5" (f_fields f) = None) (files e).

(** A media entry whose ['file'] is a non-empty path of an existing file. *)
Definition on_disk (e : media_env) (m : media_ref) : bool :=
  match mf_file m with
  | Some p => truthy (Some p) && match assoc p (disk e) with Some _ => true | None => false end
  | None => false
  end.

Lemma find_md5_no_md5 (h : string) (e : media_env) :
  no_md5 e -> gridfs_find_md5 h e = None.
Proof.
  unfold no_md5, gridfs_find_md5; induction 1 as [|f l Hf _ IH]; simpl; [reflexivity|].
  rewrite Hf; exact IH.
Qed.

Lemma upload_media_file_disk md5 guess (p tid ty : string) (e : media_env) :
  disk (snd (upload_media_file md5 guess p tid ty e)) = disk e /\
  match fst (upload_media_file md5 guess p tid ty e) with Some _ => true | None => false end
  = match assoc p (disk e) with Some _ => true | None => false end.
Proof.
  unfold upload_media_file; destruct (assoc p (disk e)); [|split; reflexivity].
  destruct (gridfs_find_md5 _ e); [split; reflexivity|].
  unfold gridfs_put; cbn; split; reflexivity.
Qed.

Lemma upload_media_file_no_md5 md5 guess (p tid ty : string) (e : media_env) :
  no_md5 e ->
  no_md5 (snd (upload_media_file md5 guess p tid ty e)) /\
  length (files (snd (upload_media_file md5 guess p tid ty e))) =
    length (files e) + match assoc p (disk e) with Some _ => 1 | None => 0 end.
Proof.
  intros H; unfold upload_media_file; destruct (assoc p (disk e)); [|cbn; split; [exact H|lia]].
  rewrite (find_md5_no_md5 _ _ H); unfold gridfs_put; cbn.
  split.
  - unfold no_md5; cbn; apply Forall_app; split; [exact H|].
    constructor; [reflexivity|constructor].
  - rewrite length_app; cbn; lia.
Qed.

Lemma store_media_loop_count md5 guess (tid : string) (l : list media_ref) (e : media_env) :
  length (fst (store_media_loop md5 guess tid l e)) = length (filter (on_disk e) l) /\
  disk (snd (store_media_loop md5 guess tid l e)) = disk e.
Proof.
  revert e; induction l as [|m l IH]; intros e; [split; reflexivity|].
  cbn [store_media_loop filter]; unfold on_disk at 1.
  destruct (mf_file m) as [p|]; cbn [truthy].
  2: { cbn; exact (IH e). }
  destruct (negb (String.eqb p "")) eqn:Ep; cbn [andb].
  2: { exact (IH e). }
  destruct (upload_media_file_disk md5 guess p tid
              (match mf_type m with Some ty => ty | None => "photo" end) e) as [Hd Hs].
  destruct (upload_media_file md5 guess p tid _ e) as [g e1] eqn:Eu; cbn in Hd, Hs.
  destruct (IH e1) as [Hl Hd1].
  destruct (store_media_loop md5 guess tid l e1) as [rest e2]; cbn in Hl, Hd1.
  assert (Hf : filter (on_disk e1) l = filter (on_disk e) l).
  { apply filter_ext; intros x; unfold on_disk; rewrite Hd; reflexivity. }
  destruct g as [g|]; rewrite <- Hs; cbn; rewrite Hl, Hf; split; congruence.
Qed.

Lemma store_media_loop_files md5 guess (tid : string) (l : list media_ref) (e : media_env) :
  no_md5 e ->
  no_md5 (snd (store_media_loop md5 guess tid l e)) /\
  length (files (snd (store_media_loop md5 guess tid l e))) =
    length (files e) + length (filter (on_disk e) l).
Proof.
  revert e; induction l as [|m l IH]; intros e H; [cbn; split; [exact H|lia]|].
  cbn [store_media_loop filter]; unfold on_disk at 1.
  destruct (mf_file m) as [p|]; cbn [truthy].
  2: { cbn; exact (IH e H). }
  destruct (negb (String.eqb p "")) eqn:Ep; cbn [andb].
  2: { exact (IH e H). }
  set (ty := match mf_type m with Some ty => ty | None => "photo" end).
  destruct (upload_media_file_disk md5 guess p tid ty e) as [Hd _].
  destruct (upload_media_file_no_md5 md5 guess p tid ty e H) as [H1 Hn1].
  destruct (upload_media_file md5 guess p tid ty e) as [g e1]; cbn in Hd, H1, Hn1.
  destruct (IH e1 H1) as [H2 Hn2].
  assert (Hf : filter (on_disk e1) l = filter (on_disk e) l).
  { apply filter_ext; intros x; unfold on_disk; rewrite Hd; reflexivity. }
  destruct (store_media_loop md5 guess tid l e1) as [rest e2]; cbn in H2, Hn2.
  rewrite Hf in Hn2.
  revert Hn1 Hn2; cbn [snd];
    destruct (assoc p (disk e)); cbn [length]; intros Hn1 Hn2;
    destruct g; (split; [exact H2|]); cbn [snd]; lia.
Qed.

(** The fields of a tweet dict that [add_tweet] reads after the media step. *)
Definition same_keys (t t' : tweet) : Prop :=
  tw_tweet_id t' = tw_tweet_id t /\ tw_bson_ok t' = tw_bson_ok t /\
  tweet_author t' = tweet_author t /\ tw_keyword t' = tw_keyword t /\
  tw_has_media t' = tw_has_media t /\ tw_media_files t' = tw_media_files t /\
  tw_scraped_at t' = tw_scraped_at t.

(** [tweet.get('tweet_id') or tweet.get('id')] *)
Definition tweet_key (t : tweet) : option string :=
  if truthy (tw_tweet_id t) then tw_tweet_id t else tw_id t.

Lemma store_media_for_tweet_spec md5 guess (t : tweet) (e : media_env) :
  same_keys t (fst (store_media_for_tweet md5 guess t e)) /\
  disk (snd (store_media_for_tweet md5 guess t e)) = disk e /\
  (no_md5 e ->
   no_md5 (snd (store_media_for_tweet md5 guess t e)) /\
   length (files (snd (store_media_for_tweet md5 guess t e))) =
     length (files e) +
     (if truthy (tw_tweet_id t) then length (filter (on_disk e) (tw_media_files t)) else 0)).
Proof.
  unfold store_media_for_tweet.
  destruct (tw_tweet_id t) as [tid|] eqn:Ei.
  2: { cbn; unfold same_keys; rewrite Ei; repeat split; try reflexivity; [|lia]; assumption. }
  destruct (truthy (Some tid)) eqn:Et.
  2: { cbn; unfold same_keys; rewrite Ei; repeat split; try reflexivity; [|lia]; assumption. }
  destruct (store_media_loop_count md5 guess tid (tw_media_files t) e) as [_ Hd].
  pose proof (store_media_loop_files md5 guess tid (tw_media_files t) e) as Hf.
  destruct (store_media_loop md5 guess tid (tw_media_files t) e) as [stored e']; cbn in *.
  split; [unfold same_keys, tweet_author; cbn; rewrite Ei; repeat split; reflexivity|].
  split; [exact Hd | exact Hf].
Qed.

Lemma store_media_for_tweet_stored md5 guess (t : tweet) (e : media_env) :
  truthy (tw_tweet_id t) = true ->
  tw_media_files_gridfs (fst (store_media_for_tweet md5 guess t e)) =
    Some (fst (store_media_loop md5 guess (match tw_tweet_id t with Some x => x | None => "" end)
                 (tw_media_files t) e)) /\
  tw_has_media_gridfs (fst (store_media_for_tweet md5 guess t e)) =
    Some (Nat.ltb 0 (length (filter (on_disk e) (tw_media_files t)))).
Proof.
  unfold store_media_for_tweet; destruct (tw_tweet_id t) as [tid|]; [|discriminate].
  intros Ht; rewrite Ht.
  destruct (store_media_loop_count md5 guess tid (tw_media_files t) e) as [Hl _].
  destruct (store_media_loop md5 guess tid (tw_media_files t) e) as [stored e']; cbn in *.
  rewrite Hl; split; reflexivity.
Qed.

Lemma tweets_tstats_update (incs : list (string * Z)) (b u : bool) (s : tdb) :
  tweets (tstats_update incs b u s) = tweets s /\
  twitter_users (tstats_update incs b u s) = twitter_users s /\
  t_media (tstats_update incs b u s) = t_media s /\
  t_next_oid (tstats_update incs b u s) = t_next_oid s.
Proof.
  unfold tstats_update; destruct (twitter_stats s); [|destruct u]; repeat split.
Qed.

Lemma tcounter_tstats_update (p : string) (incs : list (string * Z)) (b u : bool) (s : tdb) :
  twitter_stats s <> None ->
  tcounter p (tstats_update incs b u s) = fold_left (inc_opt p) incs (tcounter p s).
Proof.
  unfold tstats_update, tcounter; destruct (twitter_stats s) as [d|]; [|congruence].
  intros _; cbn; apply lookup_apply_incs.
Qed.

Lemma tstats_update_some (incs : list (string * Z)) (b u : bool) (s : tdb) :
  twitter_stats s <> None -> twitter_stats (tstats_update incs b u s) <> None.
Proof. unfold tstats_update; destruct (twitter_stats s); cbn; congruence. Qed.

Ltac destruct_stage t2 e Est :=
  match goal with
  | |- context [match (if ?b then ?x else ?y) with pair _ _ => _ end] =>
      destruct (if b then x else y) as [t2 e] eqn:Est
  end.

(** What [add_tweet] does with a tweet that has an id: the media step, then
    the BSON check, then the unique index, then the insert and the stats. *)
Lemma add_tweet_shape md5 guess (t : tweet) (s : tdb) (tid : string) :
  tweet_key t = Some tid -> truthy (Some tid) = true ->
  exists t2 e,
    same_keys (prepare_tweet t tid (t_now s)) t2 /\ disk e = disk (t_media s) /\
    (no_md5 (t_media s) ->
     no_md5 e /\
     length (files e) = length (files (t_media s)) +
       (if tw_has_media t then length (filter (on_disk (t_media s)) (tw_media_files t))
        else 0)) /\
    add_tweet md5 guess t s =
      if negb (tw_bson_ok t) then (TwError (exn_str InvalidDocument), set_media s e)
      else if existsb (fun d => opt_eqb (tw_tweet_id (td_tweet d)) tid) (tweets s)
      then (TwDuplicate tid, set_media s e)
      else (TwSuccess tid (S (length (tweets s)))
              (match tw_media_files_gridfs t2 with Some l => length l | None => 0 end)
              (t_next_oid s),
            twitter_update_stats 1 (tweet_author t) (tw_keyword t)
              (mkTdb (tweets s ++ [mkTweetDoc (t_next_oid s) t2]) (twitter_users s)
                     (twitter_stats s) (S (t_next_oid s)) (t_now s) e)).
Proof.
  intros Hk Ht; unfold add_tweet; unfold tweet_key in Hk; rewrite Hk; cbv beta iota zeta.
  rewrite Ht.
  destruct_stage t2 e Est.
  assert (Hst : same_keys (prepare_tweet t tid (t_now s)) t2 /\ disk e = disk (t_media s) /\
    (no_md5 (t_media s) -> no_md5 e /\
     length (files e) = length (files (t_media s)) +
       (if tw_has_media t then length (filter (on_disk (t_media s)) (tw_media_files t))
        else 0))).
  { destruct (tw_has_media (prepare_tweet t tid (t_now s)) &&
              negb (Nat.eqb (length (tw_media_files (prepare_tweet t tid (t_now s)))) 0)) eqn:Eb.
    - destruct (store_media_for_tweet_spec md5 guess (prepare_tweet t tid (t_now s)) (t_media s))
        as (Hs & Hd & Hn).
      rewrite Est in Hs, Hd, Hn; cbn [fst snd] in Hs, Hd, Hn.
      split; [exact Hs|]; split; [exact Hd|]; intros H0; destruct (Hn H0) as [Hn1 Hn2].
      split; [exact Hn1|]; rewrite Hn2; cbn [prepare_tweet tw_tweet_id tw_media_files tw_has_media] in *.
      rewrite Ht; apply andb_prop in Eb as [-> _]; reflexivity.
    - injection Est as <- <-.
      split; [unfold same_keys; repeat split; reflexivity|]; split; [reflexivity|].
      intros H0; split; [exact H0|].
      cbn [prepare_tweet tw_has_media tw_media_files] in Eb.
      destruct (tw_has_media t); [|lia].
      cbn in Eb; destruct (tw_media_files t); [cbn; lia|discriminate]. }
  exists t2, e; destruct Hst as (Hs & Hd & Hn).
  split; [exact Hs|]; split; [exact Hd|]; split; [exact Hn|].
  destruct Hs as (Hi & Hb & Ha & Hkw & _).
  rewrite Hb; cbn [prepare_tweet tw_bson_ok].
  destruct (negb (tw_bson_ok t)); [reflexivity|].
  cbn [set_media tweets].
  destruct (existsb _ (tweets s)); [reflexivity|].
  change (if truthy (tw_username t2) then tw_username t2 else tw_original_author t2)
    with (tweet_author t2).
  rewrite Ha, Hkw.
  change (tweet_author (prepare_tweet t tid (t_now s))) with (tweet_author t).
  cbn [prepare_tweet tw_keyword set_media t_next_oid twitter_users twitter_stats t_now t_media].
  unfold twitter_update_stats; rewrite (proj1 (tweets_tstats_update _ _ _ _)).
  cbn [tweets]; rewrite length_app; cbn [length]; rewrite Nat.add_comm; reflexivity.
Qed.

(** ** The counters of the twitter_stats document *)

Lemma str_length_app (x z : string) :
  String.length (x ++ z) = String.length x + String.length z.
Proof. induction x as [|c x IH]; cbn; [reflexivity|rewrite IH; reflexivity]. Qed.

Lemma append_cancel_r (x y z : string) : (x ++ z = y ++ z)%string -> x = y.
Proof.
  revert y; induction x as [|c x IH]; intros [|c' y] E; cbn in E.
  - reflexivity.
  - apply (f_equal String.length) in E; cbn in E; rewrite str_length_app in E; lia.
  - apply (f_equal String.length) in E; cbn in E; rewrite str_length_app in E; lia.
  - injection E as -> E; rewrite (IH y E); reflexivity.
Qed.

Lemma suffix_eqb (x y z : string) : String.eqb (x ++ z) (y ++ z) = String.eqb x y.
Proof.
  destruct (String.eqb_spec x y) as [->|Hn]; [apply String.eqb_refl|].
  apply String.eqb_neq; intros E; exact (Hn (append_cancel_r _ _ _ E)).
Qed.

Definition tweet_ids (s : tdb) : list (option string) :=
  map (fun d => tw_tweet_id (td_tweet d)) (tweets s).

(** The stored tweets whose author (username, else original_author) is [u]. *)
Definition tweets_by (u : string) (l : list tweet_doc) : nat :=
  length (filter (fun d => truthy (tweet_author (td_tweet d)) &&
                           opt_eqb (tweet_author (td_tweet d)) u) l).

(** The stored tweets whose keyword is [k]. *)
Definition tweets_on (k : string) (l : list tweet_doc) : nat :=
  length (filter (fun d => truthy (tw_keyword (td_tweet d)) &&
                           opt_eqb (tw_keyword (td_tweet d)) k) l).

(** The stored tweets that carry a keyword. *)
Definition keyword_tweets (l : list tweet_doc) : nat :=
  length (filter (fun d => truthy (tw_keyword (td_tweet d))) l).

Lemma count_snoc (f : tweet_doc -> bool) (l : list tweet_doc) (d : tweet_doc) :
  length (filter f (l ++ [d])) = length (filter f l) + (if f d then 1 else 0).
Proof. rewrite filter_app, length_app; cbn; destruct (f d); reflexivity. Qed.

Lemma opt_eqb_some (a u : string) : opt_eqb (Some a) u = String.eqb a u.
Proof. reflexivity. Qed.

Ltac split_incs a k :=
  unfold twitter_stats_incs;
  destruct a as [a|]; [destruct (truthy (Some a)) eqn:?|];
  (destruct k as [k|]; [destruct (truthy (Some k)) eqn:?|]);
  cbn [Z.gtb Z.compare app fold_left truthy andb opt_eqb];
  unfold inc_opt; cbn [fst snd].

Lemma incs_total_tweets (a k : option string) (o : option Z) :
  fold_left (inc_opt "total_tweets") (twitter_stats_incs 1 a k) o = Some (opt0 o + 1)%Z.
Proof. split_incs a k; reflexivity. Qed.

Lemma incs_total_users (a k : option string) (o : option Z) :
  fold_left (inc_opt "total_users") (twitter_stats_incs 1 a k) o = o.
Proof. split_incs a k; reflexivity. Qed.

Lemma incs_keyword_searches (a k : option string) (o : option Z) :
  fold_left (inc_opt "total_keywords_searches") (twitter_stats_incs 1 a k) o =
    if truthy k then Some (opt0 o + 1)%Z else o.
Proof. split_incs a k; cbn; try rewrite Heqb; try rewrite Heqb0; reflexivity. Qed.

Lemma prefix_eqb (p x y : string) : String.eqb (p ++ x) (p ++ y) = String.eqb x y.
Proof. induction p as [|c p IH]; cbn; [reflexivity|rewrite Ascii.eqb_refl; exact IH]. Qed.

Lemma incs_user_path (a k : option string) (u : string) (o : option Z) :
  fold_left (inc_opt ("users." ++ u ++ ".tweets")) (twitter_stats_incs 1 a k) o =
    if truthy a && opt_eqb a u then Some (opt0 o + 1)%Z else o.
Proof.
  split_incs a k.
  all: rewrite ?prefix_eqb, ?suffix_eqb; cbn.
  all: try (rewrite Heqb); try (rewrite Heqb0); cbn; reflexivity.
Qed.

Lemma incs_keyword_path (a k : option string) (w : string) (o : option Z) :
  fold_left (inc_opt ("keywords." ++ w ++ ".tweets")) (twitter_stats_incs 1 a k) o =
    if truthy k && opt_eqb k w then Some (opt0 o + 1)%Z else o.
Proof.
  split_incs a k.
  all: rewrite ?prefix_eqb, ?suffix_eqb; cbn.
  all: try (rewrite Heqb); try (rewrite Heqb0); cbn; reflexivity.
Qed.

(** The [$inc] of total_users by [n] touches no other counter. *)
Lemma user_incs_other (p : string) (n : Z) (o : option Z) :
  String.eqb "total_users" p = false ->
  fold_left (inc_opt p) [("total_users", n)] o = o.
Proof. intros H; cbn; unfold inc_opt; cbn [fst]; rewrite H; reflexivity. Qed.

(** ** What every reachable Twitter store keeps *)

Lemma delete_first_some {T} (p : T -> bool) (l l' : list T) :
  delete_first p l = Some l' ->
  exists l1 x l2, l = (l1 ++ x :: l2)%list /\ l' = (l1 ++ l2)%list /\ p x = true.
Proof.
  revert l'; induction l as [|y l IH]; intros l' E; cbn in E; [discriminate|].
  destruct (p y) eqn:Ep.
  - injection E as <-; exists [], y, l; repeat split; assumption.
  - destruct (delete_first p l) as [l''|]; [|discriminate].
    injection E as <-; destruct (IH l'' eq_refl) as (l1 & x & l2 & -> & -> & Hx).
    exists (y :: l1), x, l2; repeat split; assumption.
Qed.

Lemma delete_first_none {T} (p : T -> bool) (l : list T) :
  delete_first p l = None <-> existsb p l = false.
Proof.
  induction l as [|y l IH]; cbn; [split; reflexivity|].
  destruct (p y); cbn; [split; discriminate|].
  destruct (delete_first p l); rewrite <- IH; split; congruence.
Qed.

Lemma existsb_false_not_in {T} (p : T -> bool) (l : list T) (x : T) :
  existsb p l = false -> p x = true -> ~ In x l.
Proof.
  intros H Hx Hin; assert (E : existsb p l = true) by (apply existsb_exists; eauto).
  congruence.
Qed.

Definition tinv (s : tdb) : Prop :=
  NoDup (tweet_ids s) /\ NoDup (map u_username (twitter_users s)) /\
  tcounter "total_tweets" s = Some (Z.of_nat (length (tweets s))) /\
  tcounter "total_users" s = Some (Z.of_nat (length (twitter_users s))) /\
  tcounter "total_keywords_searches" s = Some (Z.of_nat (keyword_tweets (tweets s))) /\
  (forall u, opt0 (tcounter ("users." ++ u ++ ".tweets") s) =
             Z.of_nat (tweets_by u (tweets s))) /\
  (forall k, opt0 (tcounter ("keywords." ++ k ++ ".tweets") s) =
             Z.of_nat (tweets_on k (tweets s))) /\
  no_md5 (t_media s).

Lemma tinv_stats (s : tdb) : tinv s -> twitter_stats s <> None.
Proof.
  intros (_ & _ & H & _); unfold tcounter in H; destruct (twitter_stats s); congruence.
Qed.

Lemma tinv_set_media (s : tdb) (e : media_env) : tinv s -> no_md5 e -> tinv (set_media s e).
Proof.
  intros (H1 & H2 & H3 & H4 & H5 & H6 & H7 & _) He.
  split; [exact H1|]; split; [exact H2|]; split; [exact H3|]; split; [exact H4|].
  split; [exact H5|]; split; [exact H6|]; split; [exact H7|exact He].
Qed.

Lemma tinv_insert (s : tdb) (t2 : tweet) (e : media_env) (tid : string) :
  tinv s -> no_md5 e -> tw_tweet_id t2 = Some tid -> ~ In (Some tid) (tweet_ids s) ->
  tinv (twitter_update_stats 1 (tweet_author t2) (tw_keyword t2)
          (mkTdb (tweets s ++ [mkTweetDoc (t_next_oid s) t2]) (twitter_users s)
                 (twitter_stats s) (S (t_next_oid s)) (t_now s) e)).
Proof.
  intros Hinv He Hi Hn.
  pose proof (tinv_stats s Hinv) as Hs.
  destruct Hinv as (Hid & Hu & Htt & Htu & Hks & Hby & Hon & _).
  set (s1 := mkTdb (tweets s ++ [mkTweetDoc (t_next_oid s) t2]) (twitter_users s)
                   (twitter_stats s) (S (t_next_oid s)) (t_now s) e).
  assert (Ec : forall p, tcounter p s1 = tcounter p s) by reflexivity.
  assert (Hs1 : twitter_stats s1 <> None) by exact Hs.
  unfold twitter_update_stats.
  destruct (tweets_tstats_update (twitter_stats_incs 1 (tweet_author t2) (tw_keyword t2))
              true true s1) as (E1 & E2 & E3 & _).
  unfold tinv, tweet_ids; rewrite E1, E2, E3.
  rewrite !(tcounter_tstats_update _ _ _ _ _ Hs1).
  cbn [s1 tweets twitter_users t_media].
  split.
  { rewrite map_app; apply NoDup_app; [exact Hid|constructor; [intros []|constructor]|].
    intros x Hx [Ex|[]]; cbn in Ex; rewrite Hi in Ex; subst x; exact (Hn Hx). }
  split; [exact Hu|].
  split.
  { rewrite incs_total_tweets, Ec, Htt; cbn [opt0]; rewrite length_app; cbn [length].
    f_equal; lia. }
  split; [rewrite incs_total_users, Ec; exact Htu|].
  split.
  { rewrite incs_keyword_searches, Ec, Hks; unfold keyword_tweets; rewrite count_snoc;
      cbn [td_tweet].
    destruct (truthy (tw_keyword t2)); cbn [opt0]; f_equal; lia. }
  split.
  { intros u; rewrite (tcounter_tstats_update _ _ _ _ _ Hs1), incs_user_path, Ec; unfold tweets_by; rewrite count_snoc; cbn [td_tweet].
    specialize (Hby u); unfold tweets_by in Hby.
    destruct (truthy (tweet_author t2) && opt_eqb (tweet_author t2) u); cbn [opt0]; lia. }
  split.
  { intros k; rewrite (tcounter_tstats_update _ _ _ _ _ Hs1), incs_keyword_path, Ec; unfold tweets_on; rewrite count_snoc;
      cbn [td_tweet].
    specialize (Hon k); unfold tweets_on in Hon.
    destruct (truthy (tw_keyword t2) && opt_eqb (tw_keyword t2) k); cbn [opt0]; lia. }
  exact He.
Qed.

Lemma add_tweet_no_key md5 guess (t : tweet) (s : tdb) :
  truthy (tweet_key t) = false -> add_tweet md5 guess t s = (TwError "missing_id", s).
Proof.
  unfold add_tweet, tweet_key; cbv zeta.
  destruct (if truthy (tw_tweet_id t) then tw_tweet_id t else tw_id t) as [i|];
    [|reflexivity].
  intros H; rewrite H; reflexivity.
Qed.

Lemma tinv_add_tweet md5 guess (t : tweet) (s : tdb) :
  tinv s -> tinv (snd (add_tweet md5 guess t s)).
Proof.
  intros Hinv.
  destruct (truthy (tweet_key t)) eqn:Ek.
  2: { rewrite add_tweet_no_key by exact Ek; exact Hinv. }
  destruct (tweet_key t) as [tid|] eqn:Hk; [|discriminate].
  destruct (add_tweet_shape md5 guess t s tid Hk Ek) as (t2 & e & Hs & _ & Hn & ->).
  pose proof Hinv as (_ & _ & _ & _ & _ & _ & _ & Hm).
  destruct (Hn Hm) as [He _].
  destruct (negb (tw_bson_ok t)); [exact (tinv_set_media s e Hinv He)|].
  destruct (existsb _ (tweets s)) eqn:Ex; [exact (tinv_set_media s e Hinv He)|].
  destruct Hs as (Hi & _ & Ha & Hkw & _).
  cbn [snd]; change (tweet_author t) with (tweet_author (prepare_tweet t tid (t_now s))).
  change (tw_keyword t) with (tw_keyword (prepare_tweet t tid (t_now s))).
  rewrite <- Ha, <- Hkw.
  apply (tinv_insert s t2 e tid Hinv He Hi).
  unfold tweet_ids; intros Hin; apply in_map_iff in Hin as (d & Hd & Hin).
  apply (existsb_false_not_in _ _ d Ex); [|exact Hin].
  cbn; rewrite Hd; apply String.eqb_refl.
Qed.

Lemma tinv_add_user (u : string) (d : option string) (s : tdb) :
  tinv s -> tinv (snd (add_user u d s)).
Proof.
  intros Hinv; unfold add_user.
  destruct (existsb _ (twitter_users s)) eqn:Ex; [exact Hinv|].
  pose proof (tinv_stats s Hinv) as Hs.
  destruct Hinv as (Hid & Hu & Htt & Htu & Hks & Hby & Hon & Hm).
  set (doc := mkUser u _ (t_now s) 0 None).
  set (s1 := set_users s (twitter_users s ++ [doc])).
  assert (Ec : forall p, tcounter p s1 = tcounter p s) by reflexivity.
  assert (Hs1 : twitter_stats s1 <> None) by exact Hs.
  destruct (tweets_tstats_update [("total_users", 1%Z)] false true s1) as (E1 & E2 & E3 & _).
  cbn [snd]; unfold tinv, tweet_ids; rewrite E1, E2, E3.
  rewrite !(tcounter_tstats_update _ _ _ _ _ Hs1).
  cbn [s1 set_users tweets twitter_users t_media].
  split; [exact Hid|].
  split.
  { rewrite map_app; apply NoDup_app; [exact Hu|constructor; [intros []|constructor]|].
    intros x Hx [Ex'|[]]; cbn in Ex'; subst x.
    apply in_map_iff in Hx as (v & Hv & Hin).
    apply (existsb_false_not_in _ _ v Ex); [|exact Hin]; cbn; rewrite Hv; apply String.eqb_refl. }
  split; [rewrite user_incs_other, Ec by reflexivity; exact Htt|].
  split.
  { cbn; unfold inc_opt; cbn [fst snd]; rewrite Ec, Htu; cbn [opt0]; rewrite length_app;
      cbn [length]; f_equal; lia. }
  split; [rewrite user_incs_other, Ec by reflexivity; exact Hks|].
  split; [intros v; rewrite (tcounter_tstats_update _ _ _ _ _ Hs1), user_incs_other, Ec by reflexivity; exact (Hby v)|].
  split; [intros k; rewrite (tcounter_tstats_update _ _ _ _ _ Hs1), user_incs_other, Ec by reflexivity; exact (Hon k)|].
  exact Hm.
Qed.

Lemma tinv_remove_user (u : string) (s : tdb) :
  tinv s -> tinv (snd (remove_user u s)).
Proof.
  intros Hinv; unfold remove_user.
  destruct (delete_first _ (twitter_users s)) as [l|] eqn:Ed; [|exact Hinv].
  apply delete_first_some in Ed as (l1 & x & l2 & El & -> & _).
  pose proof (tinv_stats s Hinv) as Hs.
  destruct Hinv as (Hid & Hu & Htt & Htu & Hks & Hby & Hon & Hm).
  set (s1 := set_users s (l1 ++ l2)).
  assert (Ec : forall p, tcounter p s1 = tcounter p s) by reflexivity.
  assert (Hs1 : twitter_stats s1 <> None) by exact Hs.
  destruct (tweets_tstats_update [("total_users", (-1)%Z)] false false s1) as (E1 & E2 & E3 & _).
  cbn [snd]; unfold tinv, tweet_ids; rewrite E1, E2, E3.
  rewrite !(tcounter_tstats_update _ _ _ _ _ Hs1).
  cbn [s1 set_users tweets twitter_users t_media].
  split; [exact Hid|].
  split.
  { rewrite El, map_app in Hu; cbn [map] in Hu; rewrite map_app; exact (NoDup_remove_1 _ _ _ Hu). }
  split; [rewrite user_incs_other, Ec by reflexivity; exact Htt|].
  split.
  { cbn; unfold inc_opt; cbn [fst snd]; rewrite Ec, Htu, El; cbn [opt0];
      rewrite !length_app; cbn [length]; f_equal; lia. }
  split; [rewrite user_incs_other, Ec by reflexivity; exact Hks|].
  split; [intros v; rewrite (tcounter_tstats_update _ _ _ _ _ Hs1), user_incs_other, Ec by reflexivity; exact (Hby v)|].
  split; [intros k; rewrite (tcounter_tstats_update _ _ _ _ _ Hs1), user_incs_other, Ec by reflexivity; exact (Hon k)|].
  exact Hm.
Qed.

Lemma treachable_tinv md5 guess (s : tdb) : treachable md5 guess s -> tinv s.
Proof.
  induction 1 as [t e He|s t _ _ _ IH|s u d _ IH|s u _ IH|s t t' _ IH].
  - split; [constructor|]; split; [constructor|].
    split; [reflexivity|]; split; [reflexivity|]; split; [reflexivity|].
    split; [intros u; reflexivity|]; split; [intros k; reflexivity|exact He].
  - exact (tinv_add_tweet md5 guess t s IH).
  - exact (tinv_add_user u d s IH).
  - exact (tinv_remove_user u s IH).
  - destruct IH as (H1 & H2 & H3 & H4 & H5 & H6 & H7 & H8).
    split; [exact H1|]; split; [exact H2|]; split; [exact H3|]; split; [exact H4|].
    split; [exact H5|]; split; [exact H6|]; split; [exact H7|exact H8].
Qed.

Lemma delete_first_snoc {T} (p : T -> bool) (l : list T) (x : T) :
  existsb p l = false -> p x = true -> delete_first p (l ++ [x]) = Some l.
Proof.
  intros H Hx; induction l as [|y l IH]; cbn in *; [rewrite Hx; reflexivity|].
  apply orb_false_iff in H as [-> H]; rewrite (IH H); reflexivity.
Qed.

Lemma existsb_username_in (u : string) (l : list user_doc) :
  existsb (fun v => String.eqb (u_username v) u) l = true <-> In u (map u_username l).
Proof.
  rewrite existsb_exists, in_map_iff; split.
  - intros (v & Hin & E); apply String.eqb_eq in E; exists v; split; assumption.
  - intros (v & E & Hin); exists v; split; [exact Hin|apply String.eqb_eq; exact E].
Qed.

(** What one [add_tweet] does to the tweets collection: one document more
    on success, nothing otherwise. *)
Lemma add_tweet_tweets md5 guess (t : tweet) (s : tdb) :
  (tw_status (fst (add_tweet md5 guess t s)) = "success" /\
   exists d, tweets (snd (add_tweet md5 guess t s)) = (tweets s ++ [d])%list) \/
  (tw_status (fst (add_tweet md5 guess t s)) <> "success" /\
   tweets (snd (add_tweet md5 guess t s)) = tweets s).
Proof.
  destruct (truthy (tweet_key t)) eqn:Ek.
  2: { rewrite add_tweet_no_key by exact Ek; right; split; [discriminate|reflexivity]. }
  destruct (tweet_key t) as [tid|] eqn:Hk; [|discriminate].
  destruct (add_tweet_shape md5 guess t s tid Hk Ek) as (t2 & e & _ & _ & _ & ->).
  destruct (negb (tw_bson_ok t)); [right; split; [discriminate|reflexivity]|].
  destruct (existsb _ (tweets s)); [right; split; [discriminate|reflexivity]|].
  left; split; [reflexivity|]; eexists.
  unfold twitter_update_stats; cbn [snd]; rewrite (proj1 (tweets_tstats_update _ _ _ _)).
  reflexivity.
Qed.


(** ** Twitter: properties *)

(** X10: in every Twitter store reached from a fresh one through
    [add_tweet], [add_user] and [remove_user] (tweets with plain user names
    and keywords, see [plain_field]), the twitter_stats document agrees with the collections:
    total_tweets is the number of stored tweets, total_users the number of
    tracked users, total_keywords_searches the number of stored tweets that
    carry a keyword, [users.<u>.tweets] the number of stored tweets whose
    username (else original_author) is [u] and [keywords.<k>.tweets] the
    number of stored tweets with keyword [k] (a missing field counting as
    0); tweet ids and user names are unique. *)
Theorem twitter_stats_match_collections md5 guess (s : tdb) :
  treachable md5 guess s ->
  tcounter "total_tweets" s = Some (Z.of_nat (length (tweets s))) /\
  tcounter "total_users" s = Some (Z.of_nat (length (twitter_users s))) /\
  tcounter "total_keywords_searches" s = Some (Z.of_nat (keyword_tweets (tweets s))) /\
  (forall u, opt0 (tcounter ("users." ++ u ++ ".tweets") s) =
             Z.of_nat (tweets_by u (tweets s))) /\
  (forall k, opt0 (tcounter ("keywords." ++ k ++ ".tweets") s) =
             Z.of_nat (tweets_on k (tweets s))) /\
  NoDup (tweet_ids s) /\ NoDup (map u_username (twitter_users s)).
Proof.
  intros Hr; destruct (treachable_tinv md5 guess s Hr) as (H1 & H2 & H3 & H4 & H5 & H6 & H7 & _).
  split; [exact H3|]; split; [exact H4|]; split; [exact H5|]; split; [exact H6|].
  split; [exact H7|]; split; [exact H1|exact H2].
Qed.

(** A GridFS with one local file and a tweet that refers to it and to a
    file that does not exist. *)
Definition sample_env : media_env := mkMedia [("a.jpg", "JPEGDATA")] [] 0 "t0".

Definition sample_tweet : tweet :=
  mkTweet (Some "1") None None true
          [mkMediaRef (Some "a.jpg") None None; mkMediaRef (Some "gone.jpg") None None]
          (Some "alice") None (Some "ai") None None true.

Definition sample_md5 (x : string) : string := x.
Definition sample_guess (_ : string) : option string := Some "image/jpeg".

Definition sample_tdb : tdb :=
  snd (add_tweet sample_md5 sample_guess sample_tweet (init_tdb "t0" sample_env)).

Lemma sample_tdb_reachable : treachable sample_md5 sample_guess sample_tdb.
Proof.
  apply (tr_tweet sample_md5 sample_guess _ sample_tweet eq_refl eq_refl).
  apply tr_init; constructor.
Qed.

Lemma twitter_stats_match_collections_witness :
  opt0 (tcounter "users.alice.tweets" sample_tdb) =
    Z.of_nat (tweets_by "alice" (tweets sample_tdb)).
Proof.
  exact (proj1 (proj2 (proj2 (proj2 (twitter_stats_match_collections
           sample_md5 sample_guess sample_tdb sample_tdb_reachable)))) "alice").
Defined.

(** X12: in a reachable Twitter store, [add_tweet] of a tweet with an id
    and [has_media] set adds one new GridFS file for every media entry whose
    path is non-empty and exists on disk, whatever the outcome: the media
    are stored before [insert_one], so they are stored again when the tweet
    turns out to be a duplicate or cannot be encoded.  Without [has_media]
    nothing is uploaded.  The local files are left as they are. *)
Theorem add_tweet_uploads_media md5 guess (t : tweet) (s : tdb) :
  treachable md5 guess s -> truthy (tweet_key t) = true ->
  disk (t_media (snd (add_tweet md5 guess t s))) = disk (t_media s) /\
  length (files (t_media (snd (add_tweet md5 guess t s)))) =
    length (files (t_media s)) +
    (if tw_has_media t then length (filter (on_disk (t_media s)) (tw_media_files t)) else 0).
Proof.
  intros Hr Ek; pose proof (treachable_tinv md5 guess s Hr) as (_ & _ & _ & _ & _ & _ & _ & Hm).
  destruct (tweet_key t) as [tid|] eqn:Hk; [|discriminate].
  destruct (add_tweet_shape md5 guess t s tid Hk Ek) as (t2 & e & _ & Hd & Hn & ->).
  destruct (Hn Hm) as [_ Hl].
  destruct (negb (tw_bson_ok t)); [split; [exact Hd|exact Hl]|].
  destruct (existsb _ (tweets s)); [split; [exact Hd|exact Hl]|].
  unfold twitter_update_stats; cbn [snd]; rewrite (proj1 (proj2 (proj2 (tweets_tstats_update _ _ _ _)))).
  split; [exact Hd|exact Hl].
Qed.

Lemma add_tweet_uploads_media_witness :
  fst (add_tweet sample_md5 sample_guess sample_tweet sample_tdb) = TwDuplicate "1" /\
  length (files (t_media (snd (add_tweet sample_md5 sample_guess sample_tweet sample_tdb)))) = 2.
Proof.
  split; [vm_compute; reflexivity|].
  rewrite (proj2 (add_tweet_uploads_media sample_md5 sample_guess sample_tweet sample_tdb
                    sample_tdb_reachable eq_refl)).
  vm_compute; reflexivity.
Defined.

(** X13: [add_tweet] of an encodable tweet whose id is already stored
    reports a duplicate and leaves the tweets, the users and the
    twitter_stats document unchanged. *)
Theorem add_tweet_duplicate_keeps_collections md5 guess (t : tweet) (s : tdb) (tid : string) :
  In (Some tid) (tweet_ids s) -> tweet_key t = Some tid -> truthy (Some tid) = true ->
  tw_bson_ok t = true ->
  fst (add_tweet md5 guess t s) = TwDuplicate tid /\
  tweets (snd (add_tweet md5 guess t s)) = tweets s /\
  twitter_users (snd (add_tweet md5 guess t s)) = twitter_users s /\
  twitter_stats (snd (add_tweet md5 guess t s)) = twitter_stats s.
Proof.
  intros Hin Hk Ht Hb.
  destruct (add_tweet_shape md5 guess t s tid Hk Ht) as (t2 & e & _ & _ & _ & ->).
  rewrite Hb; cbn [negb].
  assert (Ex : existsb (fun d => opt_eqb (tw_tweet_id (td_tweet d)) tid) (tweets s) = true).
  { unfold tweet_ids in Hin; apply in_map_iff in Hin as (d & Hd & Hin).
    apply existsb_exists; exists d; split; [exact Hin|]; rewrite Hd; apply String.eqb_refl. }
  rewrite Ex; repeat split.
Qed.

Lemma add_tweet_duplicate_keeps_collections_witness :
  tweets (snd (add_tweet sample_md5 sample_guess sample_tweet sample_tdb)) = tweets sample_tdb.
Proof.
  apply (proj1 (proj2 (add_tweet_duplicate_keeps_collections sample_md5 sample_guess
                         sample_tweet sample_tdb "1" ltac:(vm_compute; left; reflexivity)
                         eq_refl eq_refl eq_refl))).
Defined.



(** X15: [store_media_for_tweet] returns a tweet without a [tweet_id]
    unchanged; otherwise it returns the tweet with every field kept (id,
    tweet_id, username, original_author, keyword, media_files, ...) and two
    fields set: media_files_gridfs to one reference per media entry whose
    path is non-empty and exists on disk, and has_media_gridfs to whether
    there is at least one; the files on disk are left alone. *)
Theorem store_media_for_tweet_counts md5 guess (t : tweet) (e : media_env) :
  (truthy (tw_tweet_id t) = false -> store_media_for_tweet md5 guess t e = (t, e)) /\
  (truthy (tw_tweet_id t) = true ->
   exists stored,
     fst (store_media_for_tweet md5 guess t e) =
       mkTweet (tw_tweet_id t) (tw_id t) (tw_scraped_at t) (tw_has_media t)
               (tw_media_files t) (tw_username t) (tw_original_author t) (tw_keyword t)
               (Some stored) (Some (Nat.ltb 0 (length stored))) (tw_bson_ok t) /\
     length stored = length (filter (on_disk e) (tw_media_files t)) /\
     disk (snd (store_media_for_tweet md5 guess t e)) = disk e).
Proof.
  unfold store_media_for_tweet; split.
  - destruct (tw_tweet_id t) as [tid|]; [|reflexivity].
    intros H; rewrite H; reflexivity.
  - destruct (tw_tweet_id t) as [tid|] eqn:Ei; [|discriminate].
    intros H; rewrite H.
    destruct (store_media_loop_count md5 guess tid (tw_media_files t) e) as [Hl Hd].
    destruct (store_media_loop md5 guess tid (tw_media_files t) e) as [stored e']; cbn in *.
    exists stored; split; [reflexivity|]; split; [exact Hl | exact Hd].
Qed.

Lemma store_media_for_tweet_counts_witness :
  tw_has_media_gridfs (fst (store_media_for_tweet sample_md5 sample_guess sample_tweet sample_env))
  = Some true /\
  tw_username (fst (store_media_for_tweet sample_md5 sample_guess sample_tweet sample_env))
  = tw_username sample_tweet.
Proof.
  destruct (proj2 (store_media_for_tweet_counts sample_md5 sample_guess sample_tweet sample_env)
              eq_refl) as (stored & Ht & Hl & _).
  rewrite Ht; split; [cbn [tw_has_media_gridfs]; rewrite Hl; reflexivity | reflexivity].
Defined.

(** X16: adding a user that is not tracked yet and then removing it
    restores the users collection and every counter of the twitter_stats
    document (total_users goes up by one and back), provided the stats
    document has a total_users field. *)
Theorem add_user_remove_user_round_trip (u : string) (d : option string) (s : tdb) :
  ~ In u (map u_username (twitter_users s)) -> tcounter "total_users" s <> None ->
  fst (add_user u d s) = UserSuccess u /\
  fst (remove_user u (snd (add_user u d s))) = RemoveSuccess /\
  twitter_users (snd (remove_user u (snd (add_user u d s)))) = twitter_users s /\
  tweets (snd (remove_user u (snd (add_user u d s)))) = tweets s /\
  (forall p, tcounter p (snd (remove_user u (snd (add_user u d s)))) = tcounter p s).
Proof.
  intros Hn Hc.
  assert (Hs : twitter_stats s <> None) by (unfold tcounter in Hc; destruct (twitter_stats s); congruence).
  unfold add_user.
  destruct (existsb (fun v => String.eqb (u_username v) u) (twitter_users s)) eqn:Ex.
  { apply existsb_username_in in Ex; contradiction. }
  cbn [fst snd]; split; [reflexivity|].
  set (doc := mkUser u _ (t_now s) 0 None).
  set (s1 := tstats_update [("total_users", 1%Z)] false true
               (set_users s (twitter_users s ++ [doc]))).
  assert (Hs1 : twitter_stats (set_users s (twitter_users s ++ [doc])) <> None) by exact Hs.
  destruct (tweets_tstats_update [("total_users", 1%Z)] false true
              (set_users s (twitter_users s ++ [doc]))) as (T1 & U1 & _).
  unfold remove_user; fold s1 in T1, U1; rewrite U1; cbn [set_users twitter_users].
  rewrite (delete_first_snoc _ _ _ Ex) by apply String.eqb_refl.
  cbn [fst snd]; split; [reflexivity|].
  assert (Hs2 : twitter_stats (set_users s1 (twitter_users s)) <> None)
    by exact (tstats_update_some _ _ _ _ Hs1).
  destruct (tweets_tstats_update [("total_users", (-1)%Z)] false false
              (set_users s1 (twitter_users s))) as (T2 & U2 & _).
  rewrite T2, U2; cbn [set_users tweets twitter_users]; rewrite T1; cbn [set_users tweets].
  split; [reflexivity|]; split; [reflexivity|].
  intros p; rewrite (tcounter_tstats_update _ _ _ _ _ Hs2).
  change (tcounter p (set_users s1 (twitter_users s))) with (tcounter p s1).
  unfold s1; rewrite (tcounter_tstats_update _ _ _ _ _ Hs1).
  change (tcounter p (set_users s (twitter_users s ++ [doc]))) with (tcounter p s).
  cbn [fold_left]; unfold inc_opt; cbn [fst snd].
  destruct (String.eqb_spec "total_users" p) as [<-|]; [|reflexivity].
  destruct (tcounter "total_users" s) as [n|]; [cbn [opt0]; f_equal; lia|contradiction].
Qed.

Lemma add_user_remove_user_round_trip_witness :
  twitter_users (snd (remove_user "bob" (snd (add_user "bob" None sample_tdb)))) =
    twitter_users sample_tdb.
Proof.
  apply (add_user_remove_user_round_trip "bob" None sample_tdb); [intros []|].
  vm_compute; discriminate.
Defined.


(** A tweet that [add_tweet] can no longer insert into [s]: it has no id, it
    cannot be encoded, or a stored tweet has its id. *)
Definition tsettled (t : tweet) (s : tdb) : Prop :=
  truthy (tweet_key t) = false \/ tw_bson_ok t = false \/
  exists tid, tweet_key t = Some tid /\ In (Some tid) (tweet_ids s).

Lemma tsettled_tweets (t : tweet) (s s' : tdb) :
  tweets s' = tweets s -> tsettled t s -> tsettled t s'.
Proof. unfold tsettled, tweet_ids; intros ->; exact (fun H => H). Qed.

Lemma add_tweet_keeps_settled md5 guess (t t' : tweet) (s : tdb) :
  tsettled t s -> tsettled t (snd (add_tweet md5 guess t' s)).
Proof.
  intros H; destruct (add_tweet_tweets md5 guess t' s) as [[_ [d Hd]]|[_ Hd]];
    [|exact (tsettled_tweets t s _ Hd H)].
  destruct H as [H|[H|(tid & Hk & Hin)]]; [left; exact H|right; left; exact H|].
  right; right; exists tid; split; [exact Hk|].
  unfold tweet_ids in *; rewrite Hd, map_app; apply in_or_app; left; exact Hin.
Qed.

Lemma add_tweet_settles md5 guess (t : tweet) (s : tdb) :
  tsettled t (snd (add_tweet md5 guess t s)).
Proof.
  destruct (truthy (tweet_key t)) eqn:Ek; [|left; exact Ek].
  destruct (tweet_key t) as [tid|] eqn:Hk; [|discriminate].
  destruct (tw_bson_ok t) eqn:Hb; [|right; left; exact Hb].
  right; right; exists tid; split; [exact Hk|].
  destruct (add_tweet_shape md5 guess t s tid Hk Ek) as (t2 & e & Hs & _ & _ & ->).
  rewrite Hb; cbn [negb].
  destruct (existsb (fun d => opt_eqb (tw_tweet_id (td_tweet d)) tid) (tweets s)) eqn:Ex.
  - cbn [snd set_media]; unfold tweet_ids; cbn [tweets].
    apply existsb_exists in Ex as (d & Hin & Hd); apply in_map_iff; exists d; split; [|exact Hin].
    destruct (tw_tweet_id (td_tweet d)); [apply String.eqb_eq in Hd; subst; reflexivity|discriminate].
  - unfold twitter_update_stats, tweet_ids; cbn [snd]; rewrite (proj1 (tweets_tstats_update _ _ _ _)).
    cbn [tweets]; rewrite map_app; apply in_or_app; right; left.
    destruct Hs as (Hi & _); exact Hi.
Qed.

Lemma tsettled_not_success md5 guess (t : tweet) (s : tdb) :
  tsettled t s ->
  tw_status (fst (add_tweet md5 guess t s)) <> "success" /\
  tweets (snd (add_tweet md5 guess t s)) = tweets s.
Proof.
  intros H.
  destruct (truthy (tweet_key t)) eqn:Ek.
  2: { rewrite add_tweet_no_key by exact Ek; split; [discriminate|reflexivity]. }
  destruct (tweet_key t) as [tid|] eqn:Hk; [|discriminate].
  destruct (add_tweet_shape md5 guess t s tid Hk Ek) as (t2 & e & _ & _ & _ & ->).
  destruct H as [H|[H|(tid' & Hk' & Hin)]]; [congruence|rewrite H; split; [discriminate|reflexivity]|].
  rewrite Hk in Hk'; injection Hk' as <-.
  destruct (negb (tw_bson_ok t)); [split; [discriminate|reflexivity]|].
  assert (Ex : existsb (fun d => opt_eqb (tw_tweet_id (td_tweet d)) tid) (tweets s) = true).
  { unfold tweet_ids in Hin; apply in_map_iff in Hin as (d & Hd & Hin).
    apply existsb_exists; exists d; split; [exact Hin|]; rewrite Hd; apply String.eqb_refl. }
  rewrite Ex; split; [discriminate|reflexivity].
Qed.

Lemma tweets_loop_keeps_settled md5 guess (t : tweet) (l : list tweet) (acc : tweet_summary)
  (s : tdb) :
  tsettled t s -> tsettled t (snd (tweets_loop md5 guess l acc s)).
Proof.
  revert acc s; induction l as [|t' l IH]; intros acc s H; [exact H|].
  cbn [tweets_loop]; pose proof (add_tweet_keeps_settled md5 guess t t' s H) as H1.
  destruct (add_tweet md5 guess t' s) as [r s1]; exact (IH _ _ H1).
Qed.

Lemma tweets_loop_settles md5 guess (l : list tweet) (acc : tweet_summary) (s : tdb) :
  Forall (fun t => tsettled t (snd (tweets_loop md5 guess l acc s))) l.
Proof.
  revert acc s; induction l as [|t l IH]; intros acc s; [constructor|].
  cbn [tweets_loop]; pose proof (add_tweet_settles md5 guess t s) as H1.
  destruct (add_tweet md5 guess t s) as [r s1]; cbn [snd] in H1.
  constructor; [exact (tweets_loop_keeps_settled md5 guess t l _ s1 H1)|exact (IH _ _)].
Qed.

Lemma tweets_loop_settled md5 guess (l : list tweet) (acc : tweet_summary) (s : tdb) :
  Forall (fun t => tsettled t s) l ->
  tb_added (fst (tweets_loop md5 guess l acc s)) = tb_added acc /\
  tweets (snd (tweets_loop md5 guess l acc s)) = tweets s.
Proof.
  revert acc s; induction l as [|t l IH]; intros acc s H; [split; reflexivity|].
  inversion H as [|? ? Ht Hl]; subst.
  cbn [tweets_loop]; destruct (tsettled_not_success md5 guess t s Ht) as [Hr Hs].
  destruct (add_tweet md5 guess t s) as [r s1]; cbn [fst snd] in Hr, Hs.
  assert (Hl1 : Forall (fun t => tsettled t s1) l).
  { eapply Forall_impl; [|exact Hl]; intros x; apply tsettled_tweets; exact Hs. }
  destruct (IH (tweet_tally acc r) s1 Hl1) as [Ha Ht1]; rewrite Ha, Ht1, Hs; split; [|reflexivity].
  unfold tweet_tally; rewrite (proj2 (String.eqb_neq _ _) Hr).
  destruct (String.eqb (tw_status r) "duplicate"); reflexivity.
Qed.

(** X19: running [add_tweets_batch] a second time on the same tweets adds
    no tweet and leaves the tweets collection as the first run left it:
    every tweet of the batch now has no id, cannot be encoded, or has its id
    stored. *)
Theorem add_tweets_batch_resubmit_adds_nothing md5 guess (l : list tweet) (s : tdb) :
  tb_added (fst (add_tweets_batch md5 guess l (snd (add_tweets_batch md5 guess l s)))) = 0 /\
  tweets (snd (add_tweets_batch md5 guess l (snd (add_tweets_batch md5 guess l s)))) =
    tweets (snd (add_tweets_batch md5 guess l s)).
Proof.
  unfold add_tweets_batch at 1 3.
  apply (tweets_loop_settled md5 guess l (mkTweetSummary (length l) 0 0 0)).
  apply tweets_loop_settles.
Qed.
